(** * dfhack-fuzzer: a shallow embedding of [dfhack-fuzzer.py]

    The script starts Dwarf Fortress, asks [dfhack-run] for the list of
    commands, runs each command once and sorts the outcomes into buckets.
    This file embeds the three parts of the script

    - the [DFInstance] class (process supervision: [open], [run]),
    - [get_commands] (parsing the output of [ls -a]),
    - [check] (the driver loop and its if/elif classification chain),

    and proves properties of them.

    Modelling conventions.
    - Python [bytes] are Rocq [string]s, one character for each byte.  A
      Python [str] is represented by its UTF-8 encoding, again a Rocq
      [string]: [decode_utf8] checks that the bytes are well formed and
      returns them.  Searching, splitting and replacing act on the
      encoding as they act on the text (no code point's encoding occurs
      inside another's); stripping and subscripting work code point by
      code point.
    - The outside world (platform, file system, the two executables) is an
      oracle [Env]; every interaction with it is recorded in a trace of
      [event]s, and the oracle answers as a function of the trace so far.
    - Exceptions are values of [exn]; state changes made before an
      exception remain (the monad [M] returns the world in both cases). *)

From Stdlib Require Import ZArith NArith Ascii String List Bool Lia ZifyBool ZifyN.
From stdpp Require Import base option list gmap strings.

Local Open Scope string_scope.
Local Open Scope list_scope.

#[local] Arguments String.append !s1 s2 : simpl nomatch.

(** ** Exceptions *)

Inductive exn : Type :=
| AssertionError         (* a failed [assert] *)
| ValueError             (* [list.index]: the element is not in the list *)
| IndexError             (* subscript out of range *)
| UnicodeDecodeError     (* [bytes.decode]: the bytes are not well-formed UTF-8 *)
| OSError                (* [subprocess]: the executable could not be started *)
| RecursionError.        (* the call depth of the model is exhausted *)

Inductive result (A : Type) : Type :=
| Raise (e : exn)
| Return (a : A).
Arguments Raise {A} e.
Arguments Return {A} a.

Definition rbind {A B} (r : result A) (k : A -> result B) : result B :=
  match r with
  | Raise e => Raise e
  | Return a => k a
  end.

(** ** Python text primitives *)

Module PyStr.

Definition LF : ascii := ascii_of_nat 10.
Definition CR : ascii := ascii_of_nat 13.
Definition SP : ascii := ascii_of_nat 32.

Definition nl : string := String LF "".
Definition crlf : string := String CR (String LF "").

(** [s.startswith(p)] *)
Fixpoint startswith (s p : string) {struct p} : bool :=
  match p with
  | EmptyString => true
  | String b p' =>
      match s with
      | EmptyString => false
      | String a s' => if Ascii.eqb a b then startswith s' p' else false
      end
  end.

(** [needle in hay] *)
Fixpoint contains (needle hay : string) : bool :=
  startswith hay needle ||
  match hay with
  | EmptyString => false
  | String _ hay' => contains needle hay'
  end.

(** Reverse of a string, used to emit the token collected so far. *)
Fixpoint rev_onto (s acc : string) : string :=
  match s with
  | EmptyString => acc
  | String c s' => rev_onto s' (String c acc)
  end.

(** [s.split(sep)] for a non-empty [sep]: leftmost non-overlapping
    occurrences of [sep] cut the string.  [skip] counts the characters
    of an occurrence still to be passed over; [cur] is the current
    token, reversed. *)
Fixpoint split_go (sep : string) (skip : nat) (cur s : string) : list string :=
  match s with
  | EmptyString => [rev_onto cur ""]
  | String c s' =>
      match skip with
      | S k => split_go sep k cur s'
      | O =>
          if startswith s sep
          then rev_onto cur "" :: split_go sep (String.length sep - 1) "" s'
          else split_go sep 0 (String c cur) s'
      end
  end.

Definition split (s sep : string) : list string := split_go sep 0 "" s.

(** [s.replace(old, new)] for a non-empty [old]. *)
Fixpoint replace_go (old new : string) (skip : nat) (s : string) : string :=
  match s with
  | EmptyString => ""
  | String c s' =>
      match skip with
      | S k => replace_go old new k s'
      | O =>
          if startswith s old
          then new +:+ replace_go old new (String.length old - 1) s'
          else String c (replace_go old new 0 s')
      end
  end.

Definition replace (s old new : string) : string := replace_go old new 0 s.

(** [c.isspace()] for the character with code point [c], U+0000..U+00FF. *)
Definition isspace (c : ascii) : bool :=
  let n := N_of_ascii c in
  ((9 <=? n) && (n <=? 13) || (28 <=? n) && (n <=? 32) || (n =? 133) || (n =? 160))%N.

Definition code (c : ascii) : N := N_of_ascii c.

Definition in_range (lo hi n : N) : bool := ((lo <=? n) && (n <=? hi))%N.

(** The white space of [str.isspace], by the length of the encoding: the
    ASCII characters 9-13 and 28-32; U+0085 and U+00A0; U+1680,
    U+2000..U+200A, U+2028, U+2029, U+202F, U+205F and U+3000. *)
Definition space1 (a : ascii) : bool := isspace a && (code a <? 128)%N.

Definition space2 (a b : ascii) : bool :=
  (code a =? 194)%N && ((code b =? 133) || (code b =? 160))%N.

Definition space3 (a b c : ascii) : bool :=
  ((code a =? 225) && (code b =? 154) && (code c =? 128) ||
   (code a =? 226) && (code b =? 128) &&
     (in_range 128 138 (code c) || (code c =? 168) || (code c =? 169) || (code c =? 175)) ||
   (code a =? 226) && (code b =? 129) && (code c =? 159) ||
   (code a =? 227) && (code b =? 128) && (code c =? 128))%N.

(** [s.lstrip()]: white-space code points are taken off the front. *)
Fixpoint lstrip (s : string) : string :=
  match s with
  | EmptyString => ""
  | String a s1 =>
      if space1 a then lstrip s1 else
      match s1 with
      | EmptyString => s
      | String b s2 =>
          if space2 a b then lstrip s2 else
          match s2 with
          | EmptyString => s
          | String c s3 => if space3 a b c then lstrip s3 else s
          end
      end
  end.

(** [s.rstrip()]: the text is cut where only white space follows.  (What
    follows a cut inside a code point starts with a continuation byte
    and so is not white space.) *)
Fixpoint rstrip (s : string) : string :=
  match s with
  | EmptyString => ""
  | String c s' =>
      match lstrip s with
      | EmptyString => ""
      | String _ _ => String c (rstrip s')
      end
  end.

Definition strip (s : string) : string := lstrip (rstrip s).

(** [s.lower()].  Up to U+00FF the capital letters are A-Z and
    U+00C0..U+00DE without the multiplication sign U+00D7; the latter are
    encoded as the byte 195 followed by 128..158, and 32 is added to the
    second byte.  Above U+00FF the text is returned as it is: Python
    maps capital letters there to letters outside ASCII, except U+0130
    (to "i" and U+0307) and the Kelvin sign U+212A (to "k"), so a search
    of the lowered text for a word without "i" and "k", as "cursor" in
    [check], gives the answer of Python. *)
Fixpoint lower_go (after_195 : bool) (s : string) : string :=
  match s with
  | EmptyString => ""
  | String c s' =>
      let n := code c in
      String
        (if in_range 65 90 n || after_195 && in_range 128 158 n && negb (n =? 151)%N
         then ascii_of_N (n + 32) else c)
        (lower_go (n =? 195)%N s')
  end.

Definition lower (s : string) : string := lower_go false s.

(** The number of bytes of the code point that starts with the byte [c]. *)
Definition lead_length (c : ascii) : nat :=
  let n := code c in
  if in_range 194 223 n then 2
  else if in_range 224 239 n then 3
  else if in_range 240 244 n then 4
  else 1.

(** The code points of a text, each with its bytes.  [skip] counts the
    bytes of the current code point still to be passed over. *)
Fixpoint chars_go (skip : nat) (s : string) : list string :=
  match s with
  | EmptyString => []
  | String c s' =>
      match skip with
      | S k => chars_go k s'
      | O => String.substring 0 (lead_length c) s :: chars_go (lead_length c - 1) s'
      end
  end.

Definition chars (s : string) : list string := chars_go 0 s.

(** [s[i]], a text of one code point. *)
Definition item (s : string) (i : nat) : result string :=
  match nth_error (chars s) i with
  | Some c => Return c
  | None => Raise IndexError
  end.

(** Well-formed UTF-8: the byte sequences of the Unicode standard, which
    exclude over-long forms, the surrogates U+D800..U+DFFF, and what lies
    above U+10FFFF. *)
Definition cont (c : ascii) : bool := in_range 128 191 (code c).

Definition seq2 (a b : ascii) : bool := in_range 194 223 (code a) && cont b.

Definition seq3 (a b c : ascii) : bool :=
  ((code a =? 224)%N && in_range 160 191 (code b) ||
   in_range 225 236 (code a) && cont b ||
   (code a =? 237)%N && in_range 128 159 (code b) ||
   in_range 238 239 (code a) && cont b) && cont c.

Definition seq4 (a b c d : ascii) : bool :=
  ((code a =? 240)%N && in_range 144 191 (code b) ||
   in_range 241 243 (code a) && cont b ||
   (code a =? 244)%N && in_range 128 143 (code b)) && cont c && cont d.

Fixpoint well_formed (b : string) : bool :=
  match b with
  | EmptyString => true
  | String x b1 =>
      if (code x <? 128)%N then well_formed b1 else
      match b1 with
      | EmptyString => false
      | String y b2 =>
          if seq2 x y then well_formed b2 else
          match b2 with
          | EmptyString => false
          | String z b3 =>
              if seq3 x y z then well_formed b3 else
              match b3 with
              | EmptyString => false
              | String u b4 => if seq4 x y z u then well_formed b4 else false
              end
          end
      end
  end.

(** [b.decode('utf-8')] *)
Definition decode_utf8 (b : string) : result string :=
  if well_formed b then Return b else Raise UnicodeDecodeError.

End PyStr.

Import PyStr.

(** ** State and exceptions

    A computation over a state [S] returns the new state together with
    either a value or the exception raised; the state reached when the
    exception was raised is kept. *)

Definition ST (S A : Type) : Type := S -> S * result A.

Definition ret {S A} (a : A) : ST S A := fun s => (s, Return a).
Definition raise {S A} (e : exn) : ST S A := fun s => (s, Raise e).
Definition bind {S A B} (m : ST S A) (k : A -> ST S B) : ST S B :=
  fun s =>
    match m s with
    | (s', Raise e) => (s', Raise e)
    | (s', Return a) => k a s'
    end.
Definition lift {S A} (r : result A) : ST S A := fun s => (s, r).

Declare Scope st_scope.
Delimit Scope st_scope with st.
Notation "x ← y ; z" := (bind y (fun x => z))
  (at level 20, y at level 100, z at level 200, only parsing) : st_scope.
Notation "x ;; z" := (bind x (fun _ => z))
  (at level 100, z at level 200, only parsing, right associativity) : st_scope.
Local Open Scope st_scope.

(** ** The outside world *)

Module Popen.
(** A [subprocess.Popen] object.  [returncode] is [None] until the
    process has been polled or waited for. *)
Record t : Type := { returncode : option Z }.
End Popen.

Module CompletedProcess.
(** What [subprocess.run(..., stdout=PIPE)] returns. *)
Record t : Type := { returncode : Z; stdout : string }.
End CompletedProcess.

Inductive event : Type :=
| SetErrorMode (mode : Z)                                          (* ctypes.windll.kernel32.SetErrorMode *)
| Spawn (args : list string) (cwd : string) (creationflags : Z)    (* subprocess.Popen *)
| Call (args : list string)                                        (* subprocess.run *)
| Sleep (seconds : Z)                                              (* time.sleep *)
| Print (msg : string)                                             (* print of a message *)
| PrintCounts (counts : gmap string nat).                          (* print of the bucket sizes *)

Record Env : Type := {
  platform : string;                                               (* sys.platform *)
  glob : list event -> string -> list string;                      (* glob.glob *)
  abspath : string -> string;                                      (* os.path.abspath *)
  dirname : string -> string;                                      (* os.path.dirname *)
  join : list string -> string;                                    (* os.path.join *)
  isdir : list event -> string -> bool;                            (* os.path.isdir *)
  spawn_fails : list event -> list string -> string -> Z -> bool;  (* does Popen raise? *)
  answer : list event -> list string -> option CompletedProcess.t  (* subprocess.run; None: it raises *)
}.

(** ** class DFInstance *)

Record DFInstance : Type := {
  _df_exe : string;
  _dfhack_run : string;
  _proc : option Popen.t
}.

Record world : Type := { self : DFInstance; trace : list event }.

(** Computations of a method of the instance, and of module-level code. *)
Abbreviation M := (ST world).
Abbreviation IO := (ST (list event)).

Definition sentinel : string := "In call to ::RunCommand: I/O error in receive header.".

Definition SEM_NOGPFAULTERRORBOX : Z := 2.

Definition default_pattern : string := "Dwarf Fortress 0.??.??".

Definition get_self : M DFInstance := fun w => (w, Return (self w)).

Definition set_proc (p : option Popen.t) : M unit :=
  fun w =>
    ({| self := {| _df_exe := _df_exe (self w);
                   _dfhack_run := _dfhack_run (self w);
                   _proc := p |};
        trace := trace w |}, Return tt).

Definition emit (e : event) : M unit :=
  fun w => ({| self := self w; trace := trace w ++ [e] |}, Return tt).

Definition ask {A} (f : list event -> A) : M A := fun w => (w, Return (f (trace w))).

Section Supervisor.
Context (E : Env).

(** [subprocess.Popen(args, cwd=cwd, creationflags=flags)] *)
Definition subprocess_Popen (args : list string) (cwd : string) (flags : Z) : M Popen.t :=
  failed ← ask (fun tr => spawn_fails E tr args cwd flags);
  emit (Spawn args cwd flags);;
  if failed : bool then raise OSError else ret {| Popen.returncode := None |}.

(** [subprocess.run(args, stdout=subprocess.PIPE)] *)
Definition subprocess_run (args : list string) : M CompletedProcess.t :=
  r ← ask (fun tr => answer E tr args);
  emit (Call args);;
  match r with
  | Some out => ret out
  | None => raise OSError
  end.

(** [self._proc is None or self._proc.returncode is not None] *)
Definition not_running (p : option Popen.t) : bool :=
  match p with
  | None => true
  | Some h => match Popen.returncode h with Some _ => true | None => false end
  end.

(** [__init__] *)
Definition DFInstance_init (pattern : option string) : IO DFInstance :=
  fun tr =>
    let pattern :=
      match pattern with
      | None => default_pattern
      | Some p => if String.eqb p "" then default_pattern else p
      end in
    match glob E tr pattern with
    | [] => (tr, Raise IndexError)
    | df_dir :: _ =>
        (tr, Return {| _df_exe := abspath E (join E [df_dir; "Dwarf Fortress.exe"]);
                       _dfhack_run := abspath E (join E [df_dir; "dfhack-run.exe"]);
                       _proc := None |})
    end.

(** [open], with the method [run] it calls back as a parameter. *)
Definition open_with (run : list string -> bool -> M CompletedProcess.t) : M unit :=
  subprocess_flags ←
    (if startswith (platform E) "win"
     then emit (SetErrorMode SEM_NOGPFAULTERRORBOX);; ret 134217728%Z
     else ret 0%Z);
  me ← get_self;
  if not_running (_proc me) then
    p ← subprocess_Popen [_df_exe me] (dirname E (_df_exe me)) subprocess_flags;
    set_proc (Some p);;
    found ← ask (fun tr => isdir E tr (join E [dirname E (_df_exe me); "data"; "save"; "region1"]));
    if found : bool then
      run ["load-save"; "region1"] false;;
      emit (Sleep 10)
    else
      emit (Print "region1 not found - create world and embark for more useful results (fewer UI context failures)")
  else ret tt.

(** [run].  [depth] bounds the nesting of [run] -> [open] -> [run]. *)
Fixpoint run (depth : nat) (commands : list string) (safe : bool) : M CompletedProcess.t :=
  match depth with
  | O => raise RecursionError
  | S d =>
      match commands with
      | [] => raise AssertionError
      | _ :: _ =>
          open_with (run d);;
          me ← get_self;
          out ← subprocess_run (_dfhack_run me :: commands);
          (if startswith (CompletedProcess.stdout out) sentinel
           then set_proc None      (* DF just crashed without Popen noticing *)
           else ret tt);;
          ret out
      end
  end.

Definition open (depth : nat) : M unit := open_with (run depth).

(** The methods as the script calls them: two levels of [run] are all
    the nesting there is (see [run_depth]). *)
Definition DFInstance_open : M unit := open 1.
Definition DFInstance_run (commands : list string) (safe : bool) : M CompletedProcess.t :=
  run 2 commands safe.

(** [__exit__] *)
Definition DFInstance_exit : M unit :=
  me ← get_self;
  subprocess_run [_dfhack_run me; "die"];;
  ret tt.

(** [with DFInstance(pattern) as hack: body].  [__enter__] hands out
    the bound method [self.run]; [__exit__] runs on every way out and
    does not swallow the exception of the body. *)
Definition with_DFInstance {A} (pattern : option string)
    (body : (list string -> bool -> M CompletedProcess.t) -> M A) : IO A :=
  fun tr =>
    match DFInstance_init pattern tr with
    | (tr0, Raise e) => (tr0, Raise e)
    | (tr0, Return inst) =>
        let '(w1, r) := body DFInstance_run {| self := inst; trace := tr0 |} in
        let '(w2, x) := DFInstance_exit w1 in
        (trace w2, match x with Raise e => Raise e | Return _ => r end)
    end.

End Supervisor.

(** ** get_commands *)

(** [l.index(x)] *)
Fixpoint index (l : list string) (x : string) : result nat :=
  match l with
  | [] => Raise ValueError
  | y :: l' =>
      if String.eqb y x then Return 0
      else rbind (index l' x) (fun i => Return (S i))
  end.

Definition denylist : list string := ["devel/"; "ssense"; "stonesense"].

(** The filter of the list comprehension:
    [line.startswith('  ') and not line[2] == ' '] *)
Definition is_command_line (line : string) : result bool :=
  if startswith line "  "
  then rbind (item line 2) (fun c => Return (negb (String.eqb c " ")))
  else Return false.

(** The element of the list comprehension: [line.split(' - ')[0].strip()] *)
Definition command_name (line : string) : string :=
  strip (hd "" (split line " - ")).

(** [[line.split(' - ')[0].strip() for line in lines if ...]] *)
Fixpoint command_names (lines : list string) : result (list string) :=
  match lines with
  | [] => Return []
  | line :: rest =>
      rbind (is_command_line line) (fun keep =>
      rbind (command_names rest) (fun names =>
      Return (if keep : bool then command_name line :: names else names)))
  end.

(** [any(c.startswith(p) for p in ('devel/', 'ssense', 'stonesense'))] *)
Definition denied (c : string) : bool := existsb (startswith c) denylist.

(** Everything [get_commands] does with [result.stdout]. *)
Definition listing_commands (stdout : string) : result (list string) :=
  rbind (decode_utf8 stdout) (fun text =>
  let lines := map rstrip (split text nl) in
  rbind (index lines "plugins:") (fun i =>
  let lines := drop (i + 1) lines in
  rbind (command_names lines) (fun commands =>
  Return (filter (fun c => negb (denied c) = true) commands)))).

(** Module-level code run from inside a method keeps the instance. *)
Definition nested {A} (io : IO A) : M A :=
  fun w =>
    let '(tr, r) := io (trace w) in
    ({| self := self w; trace := tr |}, r).

Section Enumerator.
Context (E : Env).

Definition get_commands (hack : option (list string -> bool -> M CompletedProcess.t))
    : M (list string) :=
  result ←
    match hack with
    | Some h => h ["ls"; "-a"] true
    | None => nested (with_DFInstance E None (fun run => run ["ls"; "-a"] true))
    end;
  lift (listing_commands (CompletedProcess.stdout result)).

End Enumerator.

(** ** check *)

Inductive OutcomeCategory : Type :=
| Ok | ScriptTraceback | Crashed | WrongContext | Failed.

(** The key of the bucket in [results]. *)
Definition bucket_name (c : OutcomeCategory) : string :=
  match c with
  | Ok => "ok"
  | ScriptTraceback => "script_traceback"
  | Crashed => "crashed_DF"
  | WrongContext => "wrong_UI_context"
  | Failed => "failed"
  end.

(** [out.split('\n')[0]] *)
Definition first_line (out : string) : string := hd "" (split out nl).

(** The if/elif chain of the loop body. *)
Definition classify (cmd : string) (returncode : Z) (out : string) : OutcomeCategory :=
  let firstline := strip (first_line out) in
  if (returncode =? 0)%Z then Ok
  else if contains ("/hack/scripts/" +:+ cmd) out then ScriptTraceback
  else if startswith out sentinel then Crashed
  else if contains " UI" firstline || contains "cursor" (lower firstline) then WrongContext
  else Failed.

(** [results[key][cmd] = out] on a [defaultdict(dict)] *)
Definition record (results : gmap string (gmap string string)) (key cmd out : string)
    : gmap string (gmap string string) :=
  <[key := <[cmd := out]> (default ∅ (results !! key))]> results.

(** [for cmd in commands: ...] *)
Fixpoint check_loop (hack : list string -> bool -> M CompletedProcess.t)
    (commands : list string) (results : gmap string (gmap string string))
    : M (gmap string (gmap string string)) :=
  match commands with
  | [] => ret results
  | cmd :: rest =>
      proc ← hack [cmd] true;
      text ← lift (decode_utf8 (CompletedProcess.stdout proc));
      let out := replace text crlf nl in
      check_loop hack rest
        (record results (bucket_name (classify cmd (CompletedProcess.returncode proc) out)) cmd out)
  end.

Section Driver.
Context (E : Env).

Definition check (glob_pattern : option string) : IO (gmap string (gmap string string)) :=
  results ←
    with_DFInstance E glob_pattern (fun hack =>
      commands ← get_commands E (Some hack);
      check_loop hack commands ∅);
  (fun tr => (tr ++ [PrintCounts (size <$> results)], Return tt));;
  ret results.

End Driver.

(** ** Reference notions used in the statements *)

(** The first element of [s.split(sep)], computed directly. *)
Fixpoint before (sep s : string) : string :=
  match s with
  | EmptyString => ""
  | String c s' => if startswith s sep then "" else String c (before sep s')
  end.

(** [tok] is what precedes the first occurrence of [sep] in [s], or all
    of [s] when [sep] does not occur. *)
Definition first_token (sep s tok : string) : Prop :=
  (exists rest, s = tok +:+ sep +:+ rest /\
     forall tok' rest', s = tok' +:+ sep +:+ rest' -> String.length tok <= String.length tok')
  \/ (tok = s /\ forall a b, s <> a +:+ sep +:+ b).

(** The context test in the wording of the specification: "the first
    line of output (trimmed), case-insensitively, contains [cursor], or
    the untrimmed first line contains the substring [ UI]". *)
Definition spec_wrong_context (out : string) : bool :=
  contains "cursor" (lower (strip (first_line out))) || contains " UI" (first_line out).

(** What [open] does before it looks at [self._proc]: on Windows the
    call of [SetErrorMode]; and the creation flags it then passes on. *)
Definition win_prelude (E : Env) : list event :=
  if startswith (platform E) "win" then [SetErrorMode SEM_NOGPFAULTERRORBOX] else [].

Definition creation_flags (E : Env) : Z :=
  if startswith (platform E) "win" then 134217728%Z else 0%Z.

(** The events of launching the host, of a control-channel call and of
    the settle wait. *)
Definition is_process_event (e : event) : bool :=
  match e with
  | Spawn _ _ _ | Call _ | Sleep _ => true
  | _ => false
  end.

(** A line indented by exactly two blanks: two blanks, then a character
    that is not a blank (a code point is the blank exactly when its first
    byte is). *)
Definition indented_by_two (line : string) : Prop :=
  exists c rest, line = String SP (String SP (String c rest)) /\ c <> SP.

Definition has_prefix (p s : string) : Prop := exists rest, s = p +:+ rest.

(** A text of white space only. *)
Definition all_space (s : string) : Prop := lstrip s = "".

(** A text that does not start with white space, and one that does not
    end in white space. *)
Definition no_leading_space (s : string) : Prop :=
  forall l t, s = l +:+ t -> all_space l -> l = "".

Definition no_trailing_space (s : string) : Prop :=
  forall t r, s = t +:+ r -> all_space r -> r = "".

(** A text of ASCII characters only. *)
Fixpoint ascii_only (s : string) : bool :=
  match s with
  | EmptyString => true
  | String c s' => (code c <? 128)%N && ascii_only s'
  end.

(** A listing whose marker line is followed by a blank. *)
Definition blank_after_marker : string :=
  "plugins: " +:+ nl +:+ "  reveal - y".

(** A listing with a line indented by three blanks, a name that has a
    denied prefix in its middle, and a line that is not indented. *)
Definition mixed_listing : string :=
  "plugins:" +:+ nl +:+
  "  reveal - y" +:+ nl +:+
  "   nested - n" +:+ nl +:+
  "  xdevel/foo - x" +:+ nl +:+
  "not indented - q".

(** U+2192, the arrow, in UTF-8. *)
Definition arrow : string :=
  String (ascii_of_nat 226) (String (ascii_of_nat 134) (String (ascii_of_nat 146) "")).

(** An answer to [ls -a] in which lines of two and of three blanks follow
    the marker line, one description holds an arrow, one name starts with
    a no-break space (U+00A0) and the last line is two blanks. *)
Definition blank_lines_answer : CompletedProcess.t :=
  {| CompletedProcess.returncode := 0;
     CompletedProcess.stdout :=
       "plugins:" +:+ nl +:+
       "  " +:+ nl +:+
       "  reveal - a " +:+ arrow +:+ " b" +:+ nl +:+
       "   " +:+ nl +:+
       "  " +:+ String (ascii_of_nat 194) (String (ascii_of_nat 160) "") +:+ "zone - z" +:+ nl +:+
       "  " |}.

(** [cmd] is a key of the bucket [key] of the report. *)
Definition in_bucket (report : gmap string (gmap string string)) (key cmd : string) : Prop :=
  exists bucket, report !! key = Some bucket /\ is_Some (bucket !! cmd).

(** The buckets of the report partition the set [D] of command names:
    the keys of all buckets together are [D], no name is a key of two
    buckets, and every bucket is the bucket of an outcome category. *)
Definition partitions_set (D : string -> Prop) (report : gmap string (gmap string string)) : Prop :=
  (forall cmd, D cmd <-> exists key, in_bucket report key cmd) /\
  (forall cmd k1 k2, in_bucket report k1 cmd -> in_bucket report k2 cmd -> k1 = k2) /\
  (forall key, is_Some (report !! key) -> exists c, key = bucket_name c).

Definition partitions (commands : list string) (report : gmap string (gmap string string)) : Prop :=
  partitions_set (fun cmd => cmd ∈ commands) report.

Definition scenario_commands : list string := ["reveal"; "quickfort"; "gui/foo"; "crashy"].

(** The instance with its process handle replaced. *)
Definition with_proc (me : DFInstance) (p : option Popen.t) : DFInstance :=
  {| _df_exe := _df_exe me; _dfhack_run := _dfhack_run me; _proc := p |}.

(** The handle [subprocess.Popen] returns. *)
Definition fresh_handle : Popen.t := {| Popen.returncode := None |}.

(** The event of launching the host of an instance, the directory that
    is probed for a save, and the message printed when it is missing. *)
Definition launch_event (E : Env) (me : DFInstance) : event :=
  Spawn [_df_exe me] (dirname E (_df_exe me)) (creation_flags E).

Definition save_dir (E : Env) (me : DFInstance) : string :=
  join E [dirname E (_df_exe me); "data"; "save"; "region1"].

Definition no_save_warning : string :=
  "region1 not found - create world and embark for more useful results (fewer UI context failures)".

(** The control-channel call of an instance. *)
Definition call_event (me : DFInstance) (commands : list string) : event :=
  Call (_dfhack_run me :: commands).

(** The handle after an answer: cleared when the answer starts with the
    sentinel. *)
Definition handle_after (out : CompletedProcess.t) (p : option Popen.t) : option Popen.t :=
  if startswith (CompletedProcess.stdout out) sentinel then None else p.

(** What a method may do to the world: the two paths of the instance
    stay, the handle is the old one, a fresh one or none, and the trace
    only grows. *)
Definition kept (w w' : world) : Prop :=
  _df_exe (self w') = _df_exe (self w) /\
  _dfhack_run (self w') = _dfhack_run (self w) /\
  (_proc (self w') = None \/ _proc (self w') = _proc (self w) \/
   _proc (self w') = Some fresh_handle) /\
  exists tl, trace w' = trace w ++ tl.

(** The guard of the comprehension of [get_commands], decided without
    the subscript: two blanks first, and the third character, when there
    is one, is no blank. *)
Definition two_blank_indent (line : string) : bool :=
  startswith line "  " &&
  match String.get 2 line with
  | Some c => negb (Ascii.eqb c SP)
  | None => false
  end.

(** The print of the bucket sizes, and a step of the world that only
    appends events other than that print. *)
Definition is_counts (e : event) : bool :=
  match e with
  | PrintCounts _ => true
  | _ => false
  end.

Definition quiet (w w' : world) : Prop :=
  exists tl, trace w' = trace w ++ tl /\ Forall (fun ev => is_counts ev = false) tl.

(** The report holds [out] for [cmd] in the bucket [key]. *)
Definition stored (report : gmap string (gmap string string)) (key cmd out : string) : Prop :=
  exists bucket, report !! key = Some bucket /\ bucket !! cmd = Some out.

(** The sum of the printed bucket sizes. *)
Definition total_count (counts : gmap string nat) : nat :=
  map_fold (fun _ n acc => n + acc) 0 counts.

(** A string of characters below 128 that are neither CR nor LF. *)
Fixpoint plain_ascii (s : string) : bool :=
  match s with
  | EmptyString => true
  | String c s' =>
      (N_of_ascii c <? 128)%N && negb (Ascii.eqb c CR) && negb (Ascii.eqb c LF) &&
      plain_ascii s'
  end.

(** [pattern or 'Dwarf Fortress 0.??.??'] *)
Definition effective_pattern (pattern : option string) : string :=
  match pattern with
  | None => default_pattern
  | Some p => if String.eqb p "" then default_pattern else p
  end.

(** The body of the [with] statement of [check]. *)
Definition session (E : Env) (hack : list string -> bool -> M CompletedProcess.t)
    : M (gmap string (gmap string string)) :=
  commands ← get_commands E (Some hack);
  check_loop hack commands ∅.

(** ** A sample world

    Windows, one installation with a [region1] save, and a host that
    answers as in the end-to-end scenario: [reveal] succeeds, [quickfort]
    dumps a traceback, [gui/foo] wants another screen, [crashy] kills DF. *)

Definition sample_listing : string :=
  "plugins:" +:+ nl +:+
  "  devel/foo - x" +:+ nl +:+
  "  reveal - y" +:+ nl +:+
  "  stonesensei - z".

Definition sample_answer (args : list string) : option CompletedProcess.t :=
  match args with
  | [_; "ls"; "-a"] =>
      Some {| CompletedProcess.returncode := 0; CompletedProcess.stdout := sample_listing |}
  | [_; "quickfort"] =>
      Some {| CompletedProcess.returncode := 1;
              CompletedProcess.stdout := "/hack/scripts/quickfort.lua:12: error" +:+ nl +:+ "..." |}
  | [_; "gui/foo"] =>
      Some {| CompletedProcess.returncode := 1;
              CompletedProcess.stdout := "Error: invalid UI state" +:+ nl |}
  | [_; "crashy"] =>
      Some {| CompletedProcess.returncode := 1; CompletedProcess.stdout := sentinel |}
  | _ => Some {| CompletedProcess.returncode := 0; CompletedProcess.stdout := "" |}
  end.

Definition sample_env : Env :=
  {| platform := "win32";
     glob := fun _ _ => ["Dwarf Fortress 0.43.05"];
     abspath := fun p => "C:/" +:+ p;
     dirname := fun _ => "C:/Dwarf Fortress 0.43.05";
     join := fun parts => foldr (fun p acc => if String.eqb acc "" then p else p +:+ "/" +:+ acc) "" parts;
     isdir := fun _ _ => true;
     spawn_fails := fun _ _ _ _ => false;
     answer := fun _ args => sample_answer args |}.

Definition sample_instance : DFInstance :=
  {| _df_exe := "C:/Dwarf Fortress 0.43.05/Dwarf Fortress.exe";
     _dfhack_run := "C:/Dwarf Fortress 0.43.05/dfhack-run.exe";
     _proc := None |}.

Definition sample_world : world := {| self := sample_instance; trace := [] |}.

(** Variants of the sample world: the host may fail to start, the save
    may be missing, and there may be no installation. *)
Definition sample_env_with (fails save : bool) (found : list string) : Env :=
  {| platform := platform sample_env;
     glob := fun _ _ => found;
     abspath := abspath sample_env;
     dirname := dirname sample_env;
     join := join sample_env;
     isdir := fun _ _ => save;
     spawn_fails := fun _ _ _ _ => fails;
     answer := answer sample_env |}.

Definition live_world : world :=
  {| self := with_proc sample_instance (Some fresh_handle); trace := [] |}.

(** * Properties *)

(** ** Text primitives *)

Section TextFacts.

Example split_sep3 : split "a - b - c" " - " = ["a"; "b"; "c"].
Proof. reflexivity. Qed.
Example split_only_sep : split " - " " - " = [""; ""].
Proof. reflexivity. Qed.
Example split_adjacent : split "a -  - b" " - " = ["a"; ""; "b"].
Proof. reflexivity. Qed.
Example split_dashes : split "x----y" "--" = ["x"; ""; "y"].
Proof. reflexivity. Qed.
Example replace_overlap : replace "aaa" "aa" "b" = "ba".
Proof. reflexivity. Qed.
Example strip_both : strip "  a b  " = "a b".
Proof. reflexivity. Qed.
Example rstrip_cr : rstrip (String.append "plugins:" (String CR "")) = "plugins:".
Proof. reflexivity. Qed.
Example lower_mixed : lower "No CURSOR here" = "no cursor here".
Proof. reflexivity. Qed.

Example decode_ascii : decode_utf8 "plugins:" = Return "plugins:".
Proof. reflexivity. Qed.
Example decode_two_bytes :
  decode_utf8 (String (ascii_of_nat 195) (String (ascii_of_nat 169) "")) =
  Return (String (ascii_of_nat 195) (String (ascii_of_nat 169) "")).
Proof. reflexivity. Qed.
Example decode_stray_continuation :
  decode_utf8 (String (ascii_of_nat 169) "") = Raise UnicodeDecodeError.
Proof. reflexivity. Qed.
Example decode_arrow : decode_utf8 ("a " +:+ arrow +:+ " b") = Return ("a " +:+ arrow +:+ " b").
Proof. reflexivity. Qed.
Example decode_overlong :
  decode_utf8 (String (ascii_of_nat 192) (String (ascii_of_nat 128) "")) = Raise UnicodeDecodeError.
Proof. reflexivity. Qed.
Example decode_surrogate :
  decode_utf8 (String (ascii_of_nat 237) (String (ascii_of_nat 160) (String (ascii_of_nat 128) "")))
  = Raise UnicodeDecodeError.
Proof. reflexivity. Qed.
Example decode_truncated :
  decode_utf8 (String (ascii_of_nat 226) (String (ascii_of_nat 134) "")) = Raise UnicodeDecodeError.
Proof. reflexivity. Qed.
Example decode_four_bytes :
  well_formed (String (ascii_of_nat 240) (String (ascii_of_nat 159)
                 (String (ascii_of_nat 152) (String (ascii_of_nat 128) "")))) = true /\
  well_formed (String (ascii_of_nat 244) (String (ascii_of_nat 144)
                 (String (ascii_of_nat 128) (String (ascii_of_nat 128) "")))) = false.
Proof. split; reflexivity. Qed.

(** White space of more than one byte: U+00A0 in front, U+3000 behind. *)
Example strip_wide :
  strip (String (ascii_of_nat 194) (String (ascii_of_nat 160) "") +:+ " x" +:+ arrow +:+ " " +:+
         String (ascii_of_nat 227) (String (ascii_of_nat 128) (String (ascii_of_nat 128) "")))
  = "x" +:+ arrow.
Proof. reflexivity. Qed.

(** The third code point of a line, of one byte and of three. *)
Example item_ascii : item "  ab" 2 = Return "a".
Proof. reflexivity. Qed.
Example item_arrow : item ("  " +:+ arrow +:+ "b") 2 = Return arrow.
Proof. reflexivity. Qed.
Example item_after_arrow : item (arrow +:+ " b") 2 = Return "b".
Proof. reflexivity. Qed.
Example item_out_of_range : item "  " 2 = Raise IndexError.
Proof. reflexivity. Qed.

(** U+00C9 becomes U+00E9; the multiplication sign stays. *)
Example lower_two_bytes :
  lower (String (ascii_of_nat 195) (String (ascii_of_nat 137) "") +:+ "COLE " +:+
         String (ascii_of_nat 195) (String (ascii_of_nat 151) ""))
  = String (ascii_of_nat 195) (String (ascii_of_nat 169) "") +:+ "cole " +:+
    String (ascii_of_nat 195) (String (ascii_of_nat 151) "").
Proof. reflexivity. Qed.

Lemma startswith_spec (s p : string) :
  startswith s p = true <-> exists r, s = p +:+ r.
Proof.
  revert s; induction p as [|b p IH]; intros s; simpl.
  - split; [intros _; exists s; reflexivity | reflexivity].
  - destruct s as [|a s]; simpl.
    + split; [discriminate | intros [r Hr]; discriminate].
    + destruct (Ascii.eqb_spec a b) as [->|Hab].
      * rewrite IH. split; intros [r Hr]; exists r; congruence.
      * split; [discriminate | intros [r Hr]; congruence].
Qed.

Lemma startswith_length (s p : string) :
  startswith s p = true -> String.length p <= String.length s.
Proof.
  revert s; induction p as [|b p IH]; intros [|a s]; simpl; try lia; try discriminate.
  destruct (Ascii.eqb a b); [|discriminate]. intros H%IH. lia.
Qed.

Lemma contains_spec (needle hay : string) :
  contains needle hay = true <-> exists a b, hay = a +:+ needle +:+ b.
Proof.
  induction hay as [|c hay IH].
  - cbn [contains]. rewrite orb_false_r, startswith_spec. split.
    + intros [r Hr]. exists "", r. exact Hr.
    + intros [[|x a] [b Hb]]; [exists b; exact Hb | discriminate].
  - cbn [contains]. rewrite orb_true_iff, startswith_spec, IH. split.
    + intros [[r Hr] | (a & b & Hab)].
      * exists "", r. exact Hr.
      * exists (String c a), b. simpl. congruence.
    + intros [[|x a] [b Hb]].
      * left. exists b. exact Hb.
      * right. exists a, b. simpl in Hb. congruence.
Qed.

Lemma append_nil_r (s : string) : s +:+ "" = s.
Proof. induction s; simpl; congruence. Qed.

Lemma append_assoc (a b c : string) : (a +:+ b) +:+ c = a +:+ (b +:+ c).
Proof. induction a; simpl; congruence. Qed.

Lemma length_append (a b : string) :
  String.length (a +:+ b) = String.length a + String.length b.
Proof. induction a; simpl; congruence. Qed.

Lemma rev_onto_app (s acc : string) : rev_onto s acc = rev_onto s "" +:+ acc.
Proof.
  revert acc; induction s as [|c s IH]; intros acc; simpl; [reflexivity|].
  rewrite IH, (IH (String c "")), append_assoc. reflexivity.
Qed.

Lemma hd_split_go (sep cur s : string) :
  hd "" (split_go sep 0 cur s) = rev_onto cur "" +:+ before sep s.
Proof.
  revert cur; induction s as [|c s IH]; intros cur.
  - simpl. rewrite append_nil_r. reflexivity.
  - cbn [split_go before]. destruct (startswith (String c s) sep).
    + simpl. rewrite append_nil_r. reflexivity.
    + rewrite IH. cbn [rev_onto]. rewrite (rev_onto_app cur), append_assoc. reflexivity.
Qed.

Lemma hd_split (s sep : string) : hd "" (split s sep) = before sep s.
Proof. unfold split. rewrite hd_split_go. reflexivity. Qed.

Lemma split_go_not_nil (sep : string) (skip : nat) (cur s : string) :
  split_go sep skip cur s <> [].
Proof.
  revert skip cur; induction s as [|c s IH]; intros skip cur; simpl; [discriminate|].
  destruct skip; [|apply IH]. destruct (startswith _ _); [discriminate | apply IH].
Qed.

Lemma before_first_token (c0 : ascii) (sep0 s : string) :
  first_token (String c0 sep0) s (before (String c0 sep0) s).
Proof.
  set (sep := String c0 sep0).
  induction s as [|c s IH].
  - right. split; [reflexivity|]. intros [|x a] b; discriminate.
  - cbn [before]. destruct (startswith (String c s) sep) eqn:Hs.
    + left. apply startswith_spec in Hs as [r Hr]. exists r. split; [exact Hr|].
      intros; simpl; lia.
    + assert (Hno : forall b, String c s <> "" +:+ sep +:+ b).
      { intros b Hb. assert (startswith (String c s) sep = true) as Ht
          by (apply startswith_spec; exists b; exact Hb). congruence. }
      destruct IH as [(rest & Hrest & Hmin) | (Heq & Hnone)].
      * left. exists rest. split; [simpl; f_equal; exact Hrest|].
        intros [|x tok'] rest' H'; [destruct (Hno _ H')|].
        simpl in H'. injection H' as _ H'. apply Hmin in H'. simpl. lia.
      * right. split; [f_equal; exact Heq|].
        intros [|x a] b H'; [destruct (Hno _ H')|].
        simpl in H'. injection H' as _ H'. destruct (Hnone _ _ H').
Qed.

(** The cases of [lstrip]: a white-space code point of one, two or three
    bytes is taken off, or the text is returned as it is. *)
Lemma lstrip_cases (P : string -> string -> Prop) :
  P "" "" ->
  (forall a s, space1 a = true -> P s (lstrip s) -> P (String a s) (lstrip s)) ->
  (forall a b s, space1 a = false -> space2 a b = true ->
     P s (lstrip s) -> P (String a (String b s)) (lstrip s)) ->
  (forall a b c s, space1 a = false -> space2 a b = false -> space3 a b c = true ->
     P s (lstrip s) -> P (String a (String b (String c s))) (lstrip s)) ->
  (forall a s, lstrip (String a s) = String a s -> P (String a s) (String a s)) ->
  forall s, P s (lstrip s).
Proof.
  intros H0 H1 H2 H3 Hstop s.
  assert (Hn : forall n s, String.length s <= n -> P s (lstrip s)).
  { clear s. induction n as [|n IH]; intros s Hs.
    - destruct s; [exact H0 | simpl in Hs; lia].
    - destruct s as [|a s]; [exact H0|].
      destruct (space1 a) eqn:Ha.
      { replace (lstrip (String a s)) with (lstrip s) by (simpl; rewrite Ha; reflexivity).
        apply H1; [exact Ha | apply IH; simpl in Hs; lia]. }
      destruct s as [|b s].
      { assert (He : lstrip (String a "") = String a "") by (simpl; rewrite Ha; reflexivity).
        rewrite He. apply Hstop, He. }
      destruct (space2 a b) eqn:Hb.
      { replace (lstrip (String a (String b s))) with (lstrip s)
          by (simpl; rewrite Ha, Hb; reflexivity).
        apply H2; [exact Ha | exact Hb | apply IH; simpl in Hs; lia]. }
      destruct s as [|c s].
      { assert (He : lstrip (String a (String b "")) = String a (String b ""))
          by (simpl; rewrite Ha, Hb; reflexivity).
        rewrite He. apply Hstop, He. }
      destruct (space3 a b c) eqn:Hc.
      { replace (lstrip (String a (String b (String c s)))) with (lstrip s)
          by (simpl; rewrite Ha, Hb, Hc; reflexivity).
        apply H3; [exact Ha | exact Hb | exact Hc | apply IH; simpl in Hs; lia]. }
      assert (He : lstrip (String a (String b (String c s))) = String a (String b (String c s)))
        by (simpl; rewrite Ha, Hb, Hc; reflexivity).
      rewrite He. apply Hstop, He. }
  apply (Hn (String.length s)). lia.
Qed.

Lemma lstrip_lstrip (s : string) : lstrip (lstrip s) = lstrip s.
Proof. apply (lstrip_cases (fun s r => lstrip r = r)); auto. Qed.

(** White space in front of a text is stripped with it. *)
Lemma lstrip_app (l s : string) : all_space l -> lstrip (l +:+ s) = lstrip s.
Proof.
  unfold all_space.
  apply (lstrip_cases (fun l r => r = "" -> lstrip (l +:+ s) = lstrip s)).
  - reflexivity.
  - intros a x Ha IH Hx. simpl. rewrite Ha. auto.
  - intros a b x Ha Hb IH Hx. simpl. rewrite Ha, Hb. auto.
  - intros a b c x Ha Hb Hc IH Hx. simpl. rewrite Ha, Hb, Hc. auto.
  - discriminate.
Qed.

Lemma lstrip_spec (s : string) :
  exists l, s = l +:+ lstrip s /\ all_space l.
Proof.
  unfold all_space.
  apply (lstrip_cases (fun s r => exists l, s = l +:+ r /\ lstrip l = "")).
  - exists "". auto.
  - intros a x Ha (l & Hl & Hsp). exists (String a l). simpl. rewrite Ha.
    split; [f_equal; exact Hl | exact Hsp].
  - intros a b x Ha Hb (l & Hl & Hsp). exists (String a (String b l)). simpl. rewrite Ha, Hb.
    split; [do 2 f_equal; exact Hl | exact Hsp].
  - intros a b c x Ha Hb Hc (l & Hl & Hsp). exists (String a (String b (String c l))).
    simpl. rewrite Ha, Hb, Hc. split; [do 3 f_equal; exact Hl | exact Hsp].
  - intros a x _. exists "". auto.
Qed.

Lemma lstrip_no_leading_space (s : string) : no_leading_space (lstrip s).
Proof.
  intros l t Ht Hl.
  pose proof (lstrip_lstrip s) as Hi. rewrite Ht, (lstrip_app _ _ Hl) in Hi.
  pose proof (lstrip_spec t) as (l' & Ht' & _).
  assert (Hlen : String.length (lstrip t) = String.length l + String.length t)
    by (rewrite Hi, length_append; reflexivity).
  rewrite Ht' in Hlen at 2. rewrite length_append in Hlen.
  destruct l; [reflexivity | simpl in Hlen; lia].
Qed.

Lemma lstrip_id (s : string) : no_leading_space s -> lstrip s = s.
Proof.
  intros H. destruct (lstrip_spec s) as (l & Hl & Hsp).
  rewrite (H _ _ Hl Hsp) in Hl. simpl in Hl. congruence.
Qed.

Lemma rstrip_spec (s : string) :
  exists r, s = rstrip s +:+ r /\ all_space r.
Proof.
  unfold all_space.
  induction s as [|c s (r & Hr & Hsp)]; cbn [rstrip].
  - exists "". split; reflexivity.
  - destruct (lstrip (String c s)) as [|d t] eqn:Ht.
    + exists (String c s). split; [reflexivity | exact Ht].
    + exists r. split; [simpl; f_equal; exact Hr | exact Hsp].
Qed.

(** [rstrip] cuts off every white-space end of the text. *)
Lemma rstrip_shortest (t r : string) :
  all_space r -> String.length (rstrip (t +:+ r)) <= String.length t.
Proof.
  unfold all_space. intros Hr. induction t as [|c t IH].
  - simpl. destruct r as [|c r]; [simpl; lia|]. cbn [rstrip]. rewrite Hr. simpl; lia.
  - change (String c t +:+ r) with (String c (t +:+ r)). cbn [rstrip].
    destruct (lstrip (String c (t +:+ r))); simpl; lia.
Qed.

Lemma rstrip_no_trailing_space (s : string) : no_trailing_space (rstrip s).
Proof.
  intros t r Ht Hr.
  destruct (rstrip_spec s) as (r' & Hs & Hr').
  assert (Hall : all_space (r +:+ r')) by (unfold all_space; rewrite lstrip_app; assumption).
  pose proof (rstrip_shortest t (r +:+ r') Hall) as Hlen.
  rewrite <- append_assoc, <- Ht, <- Hs, Ht, length_append in Hlen.
  destruct r; [reflexivity | simpl in Hlen; lia].
Qed.

Lemma rstrip_id (s : string) : no_trailing_space s -> rstrip s = s.
Proof.
  intros H. destruct (rstrip_spec s) as (r & Hr & Hsp).
  rewrite (H _ _ Hr Hsp), append_nil_r in Hr. congruence.
Qed.

Lemma lstrip_keeps_end (s : string) : no_trailing_space s -> no_trailing_space (lstrip s).
Proof.
  intros H t r Ht Hr. destruct (lstrip_spec s) as (l & Hl & _).
  apply (H (l +:+ t) r); [|exact Hr].
  rewrite append_assoc, <- Ht. exact Hl.
Qed.

(** [s.strip()] is [s] without the white space at its two ends. *)
Lemma strip_spec (s : string) :
  exists l r,
    s = l +:+ strip s +:+ r /\ all_space l /\ all_space r /\
    no_leading_space (strip s) /\ no_trailing_space (strip s).
Proof.
  unfold strip.
  destruct (rstrip_spec s) as (r & Hr & Hrs).
  destruct (lstrip_spec (rstrip s)) as (l & Hl & Hls).
  exists l, r. split; [|repeat split; auto].
  - rewrite <- append_assoc, <- Hl. exact Hr.
  - apply lstrip_no_leading_space.
  - apply lstrip_keeps_end, rstrip_no_trailing_space.
Qed.

Lemma strip_idempotent (s : string) : strip (strip s) = strip s.
Proof.
  destruct (strip_spec s) as (l & r & _ & _ & _ & Hlead & Htrail).
  unfold strip at 1. rewrite (rstrip_id (strip s) Htrail). apply lstrip_id, Hlead.
Qed.

(** Lower case: the state of [lower_go] matters only for bytes above 127. *)
Lemma lower_go_app (p : bool) (a b : string) :
  exists q, lower_go p (a +:+ b) = lower_go p a +:+ lower_go q b.
Proof.
  revert p; induction a as [|c a IH]; intros p.
  - exists p. reflexivity.
  - simpl. destruct (IH (code c =? 195)%N) as [q Hq]. exists q. rewrite Hq. reflexivity.
Qed.

Lemma lower_go_app_inv (p : bool) (s x y : string) :
  lower_go p s = x +:+ y ->
  exists a b q, s = a +:+ b /\ lower_go p a = x /\ lower_go q b = y.
Proof.
  revert p s; induction x as [|c x IH]; intros p s H.
  - exists "", s, p. auto.
  - destruct s as [|d s]; [discriminate|]. simpl in H. injection H as Hc H.
    apply IH in H as (a & b & q & -> & <- & <-).
    exists (String d a), b, q. simpl. rewrite Hc. auto.
Qed.

Lemma lower_byte_ascii (p q : bool) (c : ascii) :
  let out (p : bool) :=
    if in_range 65 90 (code c) || p && in_range 128 158 (code c) && negb (code c =? 151)%N
    then ascii_of_N (code c + 32) else c in
  (code (out p) < 128)%N -> out q = out p.
Proof.
  intros out. unfold out.
  destruct (in_range 65 90 (code c)) eqn:Hup; [reflexivity|].
  destruct (in_range 128 158 (code c)) eqn:Hhi;
    [|rewrite !andb_false_r; reflexivity].
  destruct (negb (code c =? 151)%N) eqn:Hx; [|rewrite !andb_false_r; reflexivity].
  unfold code, in_range in *.
  destruct p; simpl.
  - rewrite N_ascii_embedding by lia. lia.
  - destruct q; simpl; [lia | reflexivity].
Qed.

Lemma lower_go_ascii (p q : bool) (w t : string) :
  ascii_only t = true -> lower_go p w = t -> lower_go q w = t.
Proof.
  revert p q t; induction w as [|c w IH]; intros p q t Ht H; [exact H|].
  cbn [lower_go] in *. cbv zeta in *.
  destruct t as [|d t]; [discriminate|]. injection H as Hd H.
  cbn [ascii_only] in Ht. apply andb_true_iff in Ht as [Hd7 Ht]. apply N.ltb_lt in Hd7.
  rewrite (IH _ _ _ Ht H). f_equal.
  rewrite <- Hd in Hd7 |- *. apply (lower_byte_ascii p q c), Hd7.
Qed.

Lemma substring_0_0 (s : string) : String.substring 0 0 s = "".
Proof. destruct s; reflexivity. Qed.

(** The subscript [line[2]] of a line that starts with two blanks. *)
Lemma item_2 (c : ascii) (rest : string) :
  item (String SP (String SP (String c rest))) 2 =
  Return (String c (String.substring 0 (lead_length c - 1) rest)).
Proof.
  unfold item, chars. cbn [chars_go].
  change (lead_length SP) with 1. cbn [Nat.sub chars_go nth_error].
  destruct (lead_length c) as [|n] eqn:Hc.
  - unfold lead_length in Hc. repeat destruct (in_range _ _ _); discriminate.
  - simpl. rewrite Nat.sub_0_r. reflexivity.
Qed.

(** The code point [line[2]] is a blank exactly when its first byte is. *)
Lemma third_is_blank (c : ascii) (rest : string) :
  String.eqb (String c (String.substring 0 (lead_length c - 1) rest)) " " = Ascii.eqb c SP.
Proof.
  destruct (Ascii.eqb_spec c SP) as [->|Hc].
  - change (lead_length SP - 1) with 0. rewrite substring_0_0. reflexivity.
  - apply String.eqb_neq. intros [= H _]. exact (Hc H).
Qed.

Lemma decode_utf8_returns (b t : string) : decode_utf8 b = Return t -> t = b.
Proof. unfold decode_utf8. destruct (well_formed b); congruence. Qed.

Lemma decode_utf8_raises (b : string) (e : exn) :
  decode_utf8 b = Raise e -> e = UnicodeDecodeError.
Proof. unfold decode_utf8. destruct (well_formed b); congruence. Qed.

End TextFacts.

(** ** The classification chain *)

Section ClassifierFacts.

Example scenario_reveal : classify "reveal" 0 "" = Ok.
Proof. reflexivity. Qed.
Example scenario_quickfort :
  classify "quickfort" 1 ("/hack/scripts/quickfort.lua:12: error" +:+ nl +:+ "...") = ScriptTraceback.
Proof. reflexivity. Qed.
Example scenario_gui_foo : classify "gui/foo" 1 ("Error: invalid UI state" +:+ nl) = WrongContext.
Proof. reflexivity. Qed.
Example scenario_crashy : classify "crashy" 1 sentinel = Crashed.
Proof. reflexivity. Qed.
Example no_cursor_mixed_case : classify "x" 1 ("  No CuRsOr selected" +:+ nl +:+ "more") = WrongContext.
Proof. reflexivity. Qed.
Example cursor_after_arrow : classify "x" 1 (arrow +:+ " No CURSOR") = WrongContext.
Proof. reflexivity. Qed.
Example second_line_ignored : classify "x" 1 ("nothing" +:+ nl +:+ "wrong UI cursor") = Failed.
Proof. reflexivity. Qed.

Lemma contains_lower_spec (needle s : string) :
  ascii_only needle = true ->
  (contains needle (lower s) = true <->
   exists a w b, s = a +:+ w +:+ b /\ lower w = needle).
Proof.
  intros Hn. rewrite contains_spec. unfold lower. split.
  - intros (x & y & H).
    apply lower_go_app_inv in H as (a & s' & q & -> & _ & H).
    apply lower_go_app_inv in H as (w & b & q' & -> & Hw & _).
    exists a, w, b. split; [reflexivity|]. apply (lower_go_ascii q false _ _ Hn Hw).
  - intros (a & w & b & -> & Hw).
    destruct (lower_go_app false a (w +:+ b)) as [q ->].
    destruct (lower_go_app q w b) as [q' ->].
    rewrite (lower_go_ascii false q _ _ Hn Hw). eauto.
Qed.

Lemma first_line_first_token (out : string) : first_token nl out (first_line out).
Proof. unfold first_line. rewrite hd_split. apply before_first_token. Qed.

(** C1. The classifier is a total function, so every exit code and
    output get exactly one category; exit code 0 gives [Ok] whatever
    the output is (in particular when the output is the crash
    sentinel), and [Ok] is given for exit code 0 only.  The later
    checks apply in order: with a non-zero exit code a traceback match
    wins over everything after it, and the sentinel prefix wins over
    the context test. *)
Theorem exit_zero_is_Ok_first_match_wins :
  (forall cmd out, classify cmd 0 out = Ok) /\
  (forall cmd rc out, exists! c, classify cmd rc out = c) /\
  (forall cmd rc out, classify cmd rc out = Ok <-> rc = 0%Z) /\
  (forall cmd rc out, rc <> 0%Z ->
     contains ("/hack/scripts/" +:+ cmd) out = true ->
     classify cmd rc out = ScriptTraceback) /\
  (forall cmd rc out, rc <> 0%Z ->
     contains ("/hack/scripts/" +:+ cmd) out = false ->
     startswith out sentinel = true ->
     classify cmd rc out = Crashed).
Proof.
  split; [reflexivity|].
  split; [intros cmd rc out; exists (classify cmd rc out); split; [reflexivity | auto]|].
  split; [|split].
  - intros cmd rc out. unfold classify.
    destruct (Z.eqb_spec rc 0) as [->|Hrc]; [tauto|].
    split; [|contradiction].
    repeat match goal with |- context [if ?b then _ else _] => destruct b end;
      discriminate.
  - intros cmd rc out Hrc Htb. unfold classify.
    apply Z.eqb_neq in Hrc. rewrite Hrc, Htb. reflexivity.
  - intros cmd rc out Hrc Htb Hs. unfold classify.
    apply Z.eqb_neq in Hrc. rewrite Hrc, Htb, Hs. reflexivity.
Qed.

Lemma exit_zero_is_Ok_first_match_wins_witness :
  classify "crashy" 0 sentinel = Ok /\
  classify "quickfort" 1 ("/hack/scripts/quickfort.lua:12: error" +:+ nl +:+ " UI cursor") = ScriptTraceback /\
  classify "crashy" 1 (sentinel +:+ " UI") = Crashed.
Proof.
  destruct exit_zero_is_Ok_first_match_wins as (Hok & _ & _ & Htb & Hcr).
  split; [apply Hok|].
  split; [apply Htb; [lia | reflexivity] | apply Hcr; [lia | reflexivity | reflexivity]].
Defined.

(** C3. With a non-zero exit code and no traceback match, the result
    is [Crashed] exactly when the output starts with the sentinel.  A
    near miss is not [Crashed]: neither an output whose first character
    is white space (so the sentinel after leading white space), nor a
    proper prefix of the sentinel. *)
Theorem crashed_iff_sentinel_prefix (cmd : string) (rc : Z) (out : string) :
  rc <> 0%Z ->
  contains ("/hack/scripts/" +:+ cmd) out = false ->
  (classify cmd rc out = Crashed <-> exists rest, out = sentinel +:+ rest) /\
  (forall c rest, isspace c = true -> out = String c rest -> classify cmd rc out <> Crashed) /\
  (forall missing, missing <> "" -> sentinel = out +:+ missing -> classify cmd rc out <> Crashed).
Proof.
  intros Hrc Htb.
  assert (Hiff : classify cmd rc out = Crashed <-> startswith out sentinel = true).
  { unfold classify. apply Z.eqb_neq in Hrc. rewrite Hrc, Htb.
    destruct (startswith out sentinel); [tauto|].
    destruct (_ || _); split; discriminate. }
  split; [rewrite Hiff; apply startswith_spec|].
  split.
  - intros c rest Hc -> H. apply Hiff in H. cbn in H.
    destruct (Ascii.eqb_spec c "I") as [->|]; discriminate.
  - intros missing Hne Hs H. apply Hiff, startswith_length in H.
    apply (f_equal String.length) in Hs. rewrite length_append in Hs.
    rewrite Hs in H. destruct missing; [congruence|]. simpl in H. lia.
Qed.

Lemma crashed_iff_sentinel_prefix_witness :
  classify "crashy" 1 sentinel = Crashed /\
  classify "crashy" 1 (" " +:+ sentinel) <> Crashed /\
  classify "crashy" 1 "In call to ::RunCommand: I/O error in receive header" <> Crashed.
Proof.
  split; [|split].
  - apply (crashed_iff_sentinel_prefix "crashy" 1 sentinel); [lia | reflexivity |].
    exists "". reflexivity.
  - refine (proj1 (proj2 (crashed_iff_sentinel_prefix "crashy" 1 (" " +:+ sentinel) _ _))
              SP sentinel _ _); [lia | reflexivity | reflexivity | reflexivity].
  - refine (proj2 (proj2 (crashed_iff_sentinel_prefix "crashy" 1
              "In call to ::RunCommand: I/O error in receive header" _ _)) "." _ _);
      [lia | reflexivity | discriminate | reflexivity].
Defined.

(** C4, as the program has it.  When the first three checks do not
    apply, the result is [WrongContext] exactly when the trimmed first
    line contains "cursor" in any mix of cases, or the trimmed first
    line contains " UI"; otherwise it is [Failed].  The first line is
    what precedes the first line feed. *)
Theorem wrong_context_iff_trimmed_first_line (cmd : string) (rc : Z) (out : string) :
  rc <> 0%Z ->
  contains ("/hack/scripts/" +:+ cmd) out = false ->
  startswith out sentinel = false ->
  first_token nl out (first_line out) /\
  (classify cmd rc out = WrongContext <->
     (exists a w b, strip (first_line out) = a +:+ w +:+ b /\ lower w = "cursor") \/
     (exists a b, strip (first_line out) = a +:+ " UI" +:+ b)) /\
  (classify cmd rc out <> WrongContext -> classify cmd rc out = Failed).
Proof.
  intros Hrc Htb Hs. split; [apply first_line_first_token|].
  rewrite <- (contains_lower_spec "cursor" _ eq_refl), <- contains_spec.
  unfold classify. apply Z.eqb_neq in Hrc. rewrite Hrc, Htb, Hs.
  destruct (contains " UI" _); [simpl; split; [tauto | congruence]|].
  destruct (contains "cursor" _); simpl; split;
    solve [tauto | congruence | intuition discriminate].
Qed.

Lemma wrong_context_iff_trimmed_first_line_witness :
  classify "gui/foo" 1 ("Error: invalid UI state" +:+ nl) = WrongContext /\
  classify "x" 1 " UI" = Failed.
Proof.
  split.
  - apply (wrong_context_iff_trimmed_first_line "gui/foo" 1 ("Error: invalid UI state" +:+ nl));
      [lia | reflexivity | reflexivity |].
    right. exists "Error: invalid", " state". reflexivity.
  - apply (wrong_context_iff_trimmed_first_line "x" 1 " UI");
      [lia | reflexivity | reflexivity | discriminate].
Defined.

(** C4, as the specification words it, fails: for the output " UI" the
    untrimmed first line contains " UI", yet trimming removes the
    leading blank before the test and the command lands in [Failed]. *)
Lemma untrimmed_UI_not_wrong_context :
  ~ (forall cmd rc out,
       rc <> 0%Z ->
       contains ("/hack/scripts/" +:+ cmd) out = false ->
       startswith out sentinel = false ->
       (classify cmd rc out = WrongContext <-> spec_wrong_context out = true)).
Proof.
  intros H.
  assert (Hc : classify "x" 1 " UI" = WrongContext)
    by (apply (H "x" 1%Z " UI"); [lia | reflexivity | reflexivity | reflexivity]).
  discriminate Hc.
Qed.

End ClassifierFacts.

(** ** The supervisor *)

Section SupervisorFacts.
Context (E : Env).

#[local] Arguments not_running : simpl never.
#[local] Arguments startswith : simpl never.
#[local] Arguments run : simpl never.

Ltac step_monad :=
  unfold open_with, subprocess_Popen, subprocess_run, bind, ask, emit, ret, raise,
    lift, get_self, set_proc, win_prelude, creation_flags; simpl.

Lemma bind_at {S A B} (m : ST S A) (k : A -> ST S B) (s : S) :
  bind m k s =
  match m s with
  | (s', Raise e) => (s', Raise e)
  | (s', Return a) => k a s'
  end.
Proof. reflexivity. Qed.

Lemma run_S (d : nat) (commands : list string) (safe : bool) :
  run E (S d) commands safe =
  match commands with
  | [] => raise AssertionError
  | _ :: _ =>
      (open E d;;
       me ← get_self;
       out ← subprocess_run E (_dfhack_run me :: commands);
       (if startswith (CompletedProcess.stdout out) sentinel
        then set_proc None else ret tt);;
       ret out)%st
  end.
Proof. reflexivity. Qed.

(** [open] with a tracked process that has no return code. *)
Lemma open_with_live (r : list string -> bool -> M CompletedProcess.t) (w : world) :
  not_running (_proc (self w)) = false ->
  exists w', open_with E r w = (w', Return tt) /\
             self w' = self w /\ trace w' = trace w ++ win_prelude E.
Proof.
  intros H. destruct w as [me tr]. simpl in H. step_monad.
  destruct (startswith (platform E) "win"); simpl; rewrite H;
    eexists; (split; [reflexivity|]); simpl; split; try reflexivity.
  symmetry. apply app_nil_r.
Qed.

Lemma open_with_live_eq (r1 r2 : list string -> bool -> M CompletedProcess.t) (w : world) :
  not_running (_proc (self w)) = false ->
  open_with E r1 w = open_with E r2 w.
Proof.
  intros H. destruct w as [me tr]. simpl in H. step_monad.
  destruct (startswith (platform E) "win"); simpl; rewrite H; reflexivity.
Qed.

Lemma run_live_depth (d : nat) (commands : list string) (safe : bool) (w : world) :
  not_running (_proc (self w)) = false ->
  run E (S d) commands safe w = run E 1 commands safe w.
Proof.
  intros H. rewrite !run_S. destruct commands; [reflexivity|].
  rewrite !bind_at. unfold open. rewrite (open_with_live_eq (run E d) (run E 0) w H).
  reflexivity.
Qed.

Lemma open_depth (d : nat) (w : world) : open E (S d) w = DFInstance_open E w.
Proof.
  unfold DFInstance_open, open. destruct w as [me tr]. step_monad.
  destruct (startswith (platform E) "win"); simpl;
    (destruct (not_running (_proc me)); [|reflexivity]);
    (destruct (spawn_fails E _ _ _ _); [reflexivity|]);
    (destruct (isdir E _ _); [|reflexivity]);
    rewrite (run_live_depth d); reflexivity.
Qed.

(** Two levels of [run] are all the nesting there is. *)
Lemma run_depth (d : nat) (commands : list string) (safe : bool) (w : world) :
  run E (S (S d)) commands safe w = DFInstance_run E commands safe w.
Proof.
  unfold DFInstance_run. rewrite !run_S. destruct commands; [reflexivity|].
  rewrite !bind_at, open_depth. reflexivity.
Qed.

Ltac trace_tail :=
  simpl;
  first [ eexists; rewrite <- ?app_assoc; reflexivity
        | exists []; rewrite app_nil_r; reflexivity ].

(** [open] only appends to the trace and raises no [AssertionError],
    provided the [run] it calls back does so for [load-save]. *)
Lemma open_with_grows (r : list string -> bool -> M CompletedProcess.t) :
  (forall w, (exists tl, trace (r ["load-save"; "region1"] false w).1 = trace w ++ tl) /\
             (r ["load-save"; "region1"] false w).2 <> Raise AssertionError) ->
  forall w, (exists tl, trace (open_with E r w).1 = trace w ++ tl) /\
            (open_with E r w).2 <> Raise AssertionError.
Proof.
  intros Hr [me tr]. step_monad.
  destruct (startswith (platform E) "win"); simpl;
    (destruct (not_running (_proc me)); [|split; [trace_tail | discriminate]]);
    (destruct (spawn_fails E _ _ _ _); simpl; [split; [trace_tail | discriminate]|]);
    (destruct (isdir E _ _); simpl; [|split; [trace_tail | discriminate]]);
    match goal with |- context [?f ["load-save"; "region1"] false ?w0] =>
      destruct (Hr w0) as [[tl Htl] Hna];
      destruct (f ["load-save"; "region1"] false w0) as [w3 [e|x]]
    end; simpl in *; rewrite Htl;
    (split; [trace_tail | first [discriminate | congruence]]).
Qed.

Lemma run_grows (d : nat) (commands : list string) (safe : bool) (w : world) :
  (exists tl, trace (run E d commands safe w).1 = trace w ++ tl) /\
  (commands <> [] -> (run E d commands safe w).2 <> Raise AssertionError).
Proof.
  revert commands safe w; induction d as [|d IH]; intros commands safe w.
  - split; [exists []; simpl; rewrite app_nil_r; reflexivity | discriminate].
  - rewrite run_S. destruct commands as [|c cs].
    + split; [exists []; simpl; rewrite app_nil_r; reflexivity | congruence].
    + assert (Ho := open_with_grows (run E d)
                      (fun w0 => conj (proj1 (IH _ false w0))
                                      (proj2 (IH ["load-save"; "region1"] false w0)
                                             ltac:(discriminate))) w).
      destruct Ho as [[tl Htl] Hna].
      rewrite bind_at. unfold open.
      destruct (open_with E (run E d) w) as [w1 [e|[]]]; simpl in *.
      * split; [eauto | intros _; congruence].
      * destruct w1 as [me1 tr1]. simpl in Htl. subst tr1. step_monad.
        destruct (answer E _ _) as [out|]; simpl;
          [destruct (startswith _ sentinel); simpl|];
          (split; [trace_tail | discriminate]).
Qed.

Lemma open_grows (d : nat) (w : world) :
  exists tl, trace (open E d w).1 = trace w ++ tl.
Proof.
  apply (open_with_grows (run E d)). intros w0. split; apply run_grows. discriminate.
Qed.

(** With no tracked process, or a finished one, [open] starts the
    host: after the Windows prelude the first thing it does is
    [subprocess.Popen]. *)
Lemma open_launches (d : nat) (w : world) :
  not_running (_proc (self w)) = true ->
  exists tl, trace (open E d w).1 =
             trace w ++ win_prelude E ++
             Spawn [_df_exe (self w)] (dirname E (_df_exe (self w))) (creation_flags E) :: tl.
Proof.
  intros H. destruct w as [me tr]. simpl in H. unfold open. step_monad.
  destruct (startswith (platform E) "win"); simpl; rewrite H;
    (destruct (spawn_fails E _ _ _ _); simpl;
       [exists []; rewrite <- ?app_assoc; reflexivity|]);
    (destruct (isdir E _ _); simpl;
       [|eexists; rewrite <- ?app_assoc; reflexivity]);
    match goal with |- context [?f ["load-save"; "region1"] false ?w0] =>
      destruct (run_grows d ["load-save"; "region1"] false w0) as [[tl Htl] _];
      destruct (f ["load-save"; "region1"] false w0) as [w3 [e|x]]
    end; simpl in *; rewrite Htl; eexists; rewrite <- ?app_assoc; simpl; reflexivity.
Qed.

(** The only exception the control-channel call of [run] can raise. *)
Lemma run_tail_raises (me : DFInstance) (commands : list string) (w : world) (e : exn) :
  ((out ← subprocess_run E (_dfhack_run me :: commands);
    (if startswith (CompletedProcess.stdout out) sentinel
     then set_proc None else ret tt);;
    ret out)%st w).2 = Raise e ->
  e = OSError.
Proof.
  destruct w as [me0 tr]. step_monad.
  destruct (answer E _ _) as [out|]; simpl;
    [destruct (startswith _ sentinel); simpl; discriminate | congruence].
Qed.

Lemma run_live_raises (c : string) (cs : list string) (safe : bool) (w : world) (e : exn) :
  not_running (_proc (self w)) = false ->
  (run E 1 (c :: cs) safe w).2 = Raise e -> e = OSError.
Proof.
  intros Hlive. rewrite run_S, bind_at. unfold open.
  destruct (open_with_live (run E 0) w Hlive) as (w1 & -> & _ & _).
  rewrite bind_at. unfold get_self at 1. apply run_tail_raises.
Qed.

Lemma open_raises (w : world) (e : exn) :
  (DFInstance_open E w).2 = Raise e -> e = OSError.
Proof.
  unfold DFInstance_open, open. destruct w as [me tr]. step_monad.
  destruct (startswith (platform E) "win"); simpl;
    (destruct (not_running (_proc me)); [|discriminate]);
    (destruct (spawn_fails E _ _ _ _); simpl; [congruence|]);
    (destruct (isdir E _ _); simpl; [|discriminate]);
    match goal with |- context [?f ["load-save"; "region1"] false ?w0] =>
      pose proof (run_live_raises "load-save" ["region1"] false w0) as Hr;
      destruct (f ["load-save"; "region1"] false w0) as [w3 [e'|x]]
    end; simpl in *; try discriminate;
    intros [= <-]; apply Hr; reflexivity.
Qed.

(** The call depth of the model is never exhausted: [run] fails only
    by the assertion on its arguments or because an executable could
    not be started. *)
Lemma run_raises (d : nat) (commands : list string) (safe : bool) (w : world) (e : exn) :
  (run E (S (S d)) commands safe w).2 = Raise e ->
  (e = AssertionError /\ commands = []) \/ e = OSError.
Proof.
  rewrite run_depth. unfold DFInstance_run. rewrite run_S.
  destruct commands as [|c cs]; [intros [= <-]; auto|].
  rewrite bind_at. fold (DFInstance_open E).
  pose proof (open_raises w) as Ho.
  destruct (DFInstance_open E w) as [w1 [e'|[]]]; simpl in *.
  - intros [= <-]. right. apply Ho. reflexivity.
  - rewrite bind_at. unfold get_self at 1. intros H. right. eapply run_tail_raises, H.
Qed.

Lemma run_clears_on_sentinel_prefix (d : nat) (c : string) (cs : list string) (safe : bool)
    (w w1 : world) (out : CompletedProcess.t) :
  open E d w = (w1, Return tt) ->
  answer E (trace w1) (_dfhack_run (self w1) :: c :: cs) = Some out ->
  startswith (CompletedProcess.stdout out) sentinel = true ->
  run E (S d) (c :: cs) safe w =
  ({| self := {| _df_exe := _df_exe (self w1);
                 _dfhack_run := _dfhack_run (self w1);
                 _proc := None |};
      trace := trace w1 ++ [Call (_dfhack_run (self w1) :: c :: cs)] |}, Return out).
Proof.
  intros Hopen Hans Hpre. rewrite run_S, bind_at, Hopen.
  unfold subprocess_run, bind, ask, emit, ret, get_self, set_proc. simpl.
  rewrite Hans. simpl. rewrite Hpre. reflexivity.
Qed.

(** C2. Suppose [open] has succeeded and the control channel answers
    with exactly the sentinel.  Then [run] returns this very answer (it
    does not raise, and the command is sent once), the process handle
    is cleared, and the next [open] launches the host again. *)
Theorem sentinel_clears_process_handle (d : nat) (commands : list string) (safe : bool)
    (w w1 : world) (out : CompletedProcess.t) :
  commands <> [] ->
  open E (S d) w = (w1, Return tt) ->
  answer E (trace w1) (_dfhack_run (self w1) :: commands) = Some out ->
  CompletedProcess.stdout out = sentinel ->
  exists w2,
    run E (S (S d)) commands safe w = (w2, Return out) /\
    _proc (self w2) = None /\
    trace w2 = trace w1 ++ [Call (_dfhack_run (self w1) :: commands)] /\
    exists tl, trace (open E (S d) w2).1 =
               trace w2 ++ win_prelude E ++
               Spawn [_df_exe (self w2)] (dirname E (_df_exe (self w2))) (creation_flags E) :: tl.
Proof.
  intros Hne Hopen Hans Hout. destruct commands as [|c cs]; [congruence|].
  eexists. split.
  - apply (run_clears_on_sentinel_prefix _ _ _ _ _ _ _ Hopen Hans).
    rewrite Hout. reflexivity.
  - split; [reflexivity|]. split; [reflexivity|].
    apply open_launches. reflexivity.
Qed.

(** C8. When a process is tracked and has no return code, [open]
    returns normally and leaves the three fields of the instance as
    they were.  The only thing it does is the Windows prelude
    ([SetErrorMode], nothing on other platforms): no launch, no
    control-channel call and so no "load-save", no sleep.  Calling it
    once more is again such a call. *)
Theorem open_is_noop_when_live (d : nat) (w : world) (h : Popen.t) :
  _proc (self w) = Some h ->
  Popen.returncode h = None ->
  exists w',
    open E d w = (w', Return tt) /\
    self w' = self w /\
    trace w' = trace w ++ win_prelude E /\
    Forall (fun e => is_process_event e = false) (win_prelude E) /\
    exists w'', open E d w' = (w'', Return tt) /\ self w'' = self w.
Proof.
  intros Hp Hrc.
  assert (Hlive : not_running (_proc (self w)) = false)
    by (rewrite Hp; unfold not_running; rewrite Hrc; reflexivity).
  destruct (open_with_live (run E d) w Hlive) as (w' & Hopen & Hself & Htr).
  exists w'. repeat split; try assumption.
  - unfold win_prelude. destruct (startswith _ _); repeat constructor.
  - rewrite <- Hself in Hlive.
    destruct (open_with_live (run E d) w' Hlive) as (w'' & Hopen' & Hself' & _).
    exists w''. split; [exact Hopen' | congruence].
Qed.

(** C9. [run] with no command arguments raises [AssertionError] and
    touches nothing: the instance and the trace are as before.  With at
    least one argument the assertion passes: whatever the world does,
    [run] raises no [AssertionError] (and the call depth of the model is
    not exhausted, so the outcome is one of the program). *)
Theorem run_asserts_commands (d : nat) (safe : bool) (w : world) :
  run E (S (S d)) [] safe w = (w, Raise AssertionError) /\
  forall commands, commands <> [] ->
    (run E (S (S d)) commands safe w).2 <> Raise AssertionError /\
    (run E (S (S d)) commands safe w).2 <> Raise RecursionError.
Proof.
  split; [reflexivity|]. intros commands Hne.
  split; intros H; apply run_raises in H as [[He Hc] | He]; congruence.
Qed.

(** C10. The keyword argument [safe] has no effect: the two runs that
    differ only in [safe] end in the same world with the same result. *)
Theorem run_ignores_safe (d : nat) (commands : list string) (w : world) :
  run E d commands true w = run E d commands false w.
Proof. destruct d; reflexivity. Qed.

End SupervisorFacts.

Lemma sentinel_clears_process_handle_witness :
  exists w2,
    DFInstance_run sample_env ["crashy"] true sample_world =
      (w2, Return {| CompletedProcess.returncode := 1; CompletedProcess.stdout := sentinel |}) /\
    _proc (self w2) = None.
Proof.
  destruct (sentinel_clears_process_handle sample_env 0 ["crashy"] true sample_world
              (DFInstance_open sample_env sample_world).1
              {| CompletedProcess.returncode := 1; CompletedProcess.stdout := sentinel |})
    as (w2 & Hrun & Hproc & _);
    [discriminate | reflexivity | reflexivity | reflexivity |].
  exists w2. split; [exact Hrun | exact Hproc].
Defined.

Lemma open_is_noop_when_live_witness :
  exists w',
    DFInstance_open sample_env (DFInstance_open sample_env sample_world).1 = (w', Return tt) /\
    self w' = self (DFInstance_open sample_env sample_world).1.
Proof.
  destruct (open_is_noop_when_live sample_env 1 (DFInstance_open sample_env sample_world).1
              {| Popen.returncode := None |})
    as (w' & Hopen & Hself & _); [reflexivity | reflexivity |].
  exists w'. split; [exact Hopen | exact Hself].
Defined.

Lemma run_asserts_commands_witness :
  (DFInstance_run sample_env ["reveal"] true sample_world).2 <> Raise AssertionError.
Proof.
  apply (run_asserts_commands sample_env 0 true sample_world). discriminate.
Defined.

(** The scenario of a crash: [crashy] is answered with the sentinel, so
    the following command starts the host once more before it is sent. *)
Example relaunch_after_crash :
  trace (bind (DFInstance_run sample_env ["crashy"] true)
              (fun _ => DFInstance_run sample_env ["reveal"] true) sample_world).1 =
  [ SetErrorMode 2;
    Spawn ["C:/Dwarf Fortress 0.43.05/Dwarf Fortress.exe"] "C:/Dwarf Fortress 0.43.05" 134217728;
    SetErrorMode 2;
    Call ["C:/Dwarf Fortress 0.43.05/dfhack-run.exe"; "load-save"; "region1"];
    Sleep 10;
    Call ["C:/Dwarf Fortress 0.43.05/dfhack-run.exe"; "crashy"];
    SetErrorMode 2;
    Spawn ["C:/Dwarf Fortress 0.43.05/Dwarf Fortress.exe"] "C:/Dwarf Fortress 0.43.05" 134217728;
    SetErrorMode 2;
    Call ["C:/Dwarf Fortress 0.43.05/dfhack-run.exe"; "load-save"; "region1"];
    Sleep 10;
    Call ["C:/Dwarf Fortress 0.43.05/dfhack-run.exe"; "reveal"] ].
Proof. vm_compute. reflexivity. Qed.

(** Without a crash the host is started once. *)
Example no_relaunch_without_crash :
  trace (bind (DFInstance_run sample_env ["gui/foo"] true)
              (fun _ => DFInstance_run sample_env ["reveal"] true) sample_world).1 =
  [ SetErrorMode 2;
    Spawn ["C:/Dwarf Fortress 0.43.05/Dwarf Fortress.exe"] "C:/Dwarf Fortress 0.43.05" 134217728;
    SetErrorMode 2;
    Call ["C:/Dwarf Fortress 0.43.05/dfhack-run.exe"; "load-save"; "region1"];
    Sleep 10;
    Call ["C:/Dwarf Fortress 0.43.05/dfhack-run.exe"; "gui/foo"];
    SetErrorMode 2;
    Call ["C:/Dwarf Fortress 0.43.05/dfhack-run.exe"; "reveal"] ].
Proof. vm_compute. reflexivity. Qed.

(** ** The enumerator *)

Section EnumeratorFacts.

#[local] Arguments startswith : simpl never.

Lemma index_spec (l : list string) (x : string) (i : nat) :
  index l x = Return i <->
  l !! i = Some x /\ forall j, j < i -> l !! j <> Some x.
Proof.
  revert i; induction l as [|y l IH]; intros i; simpl.
  - split; [discriminate | intros [H _]; discriminate].
  - destruct (String.eqb_spec y x) as [->|Hyx].
    + split.
      * intros [= <-]. split; [reflexivity | intros j Hj; lia].
      * intros [H Hmin]. destruct i as [|i]; [reflexivity|].
        destruct (Hmin 0); [lia | reflexivity].
    + destruct i as [|i].
      * split; [destruct (index l x); discriminate | intros [[= H] _]; congruence].
      * specialize (IH i). destruct (index l x) as [e|k]; simpl.
        -- split; [discriminate|]. intros [H Hmin].
           assert (Raise e = Return i) as Hc; [|discriminate Hc].
           apply IH. split; [exact H|]. intros j Hj. apply (Hmin (S j)). lia.
        -- split.
           ++ intros [= ->]. destruct (proj1 IH eq_refl) as [H Hmin].
              split; [exact H|]. intros [|j] Hj; simpl; [congruence|]. apply Hmin. lia.
           ++ intros [H Hmin]. f_equal. f_equal.
              assert (Return k = Return i) as Hc; [|congruence].
              apply IH. split; [exact H|]. intros j Hj. apply (Hmin (S j)). lia.
Qed.

Lemma index_absent (l : list string) (x : string) :
  x ∉ l -> index l x = Raise ValueError.
Proof.
  induction l as [|y l IH]; intros H; simpl; [reflexivity|].
  apply not_elem_of_cons in H as [Hxy Hl].
  destruct (String.eqb_spec y x); [congruence|]. rewrite (IH Hl). reflexivity.
Qed.

Lemma append_eq_length (a b x y : string) :
  a +:+ x = b +:+ y -> String.length a = String.length b -> a = b.
Proof.
  revert b; induction a as [|c a IH]; intros [|d b]; simpl; try discriminate; auto.
  intros [= -> H] [= Hl]. f_equal. eauto.
Qed.

Lemma first_token_unique (sep s t1 t2 : string) :
  first_token sep s t1 -> first_token sep s t2 -> t1 = t2.
Proof.
  intros [(r1 & H1 & M1) | (-> & N1)] [(r2 & H2 & M2) | (-> & N2)].
  - apply (append_eq_length _ _ (sep +:+ r1) (sep +:+ r2)); [congruence|].
    apply Nat.le_antisymm; [eapply M1 | eapply M2]; eauto.
  - destruct (N2 _ _ H1).
  - destruct (N1 _ _ H2).
  - reflexivity.
Qed.

Lemma command_name_spec (line tok : string) :
  first_token " - " line tok -> command_name line = strip tok.
Proof.
  intros H. unfold command_name. rewrite hd_split. f_equal.
  eapply first_token_unique; [apply before_first_token | exact H].
Qed.

(** On a line without trailing white space the filter of the
    comprehension never reads past the end of the line. *)
Lemma is_command_line_spec (line : string) :
  no_trailing_space line ->
  exists keep, is_command_line line = Return keep /\ (keep = true <-> indented_by_two line).
Proof.
  intros Hline. unfold is_command_line.
  destruct (startswith line "  ") eqn:Hs.
  - apply startswith_spec in Hs as [r ->]. destruct r as [|c rest].
    + exfalso. specialize (Hline "" "  " eq_refl eq_refl). discriminate.
    + change ("  " +:+ String c rest) with (String SP (String SP (String c rest))).
      rewrite item_2. cbn [rbind]. rewrite third_is_blank.
      exists (negb (Ascii.eqb c SP)). split; [reflexivity|].
      destruct (Ascii.eqb_spec c SP) as [->|Hc]; simpl.
      * split; [discriminate|]. intros (c' & rest' & [= <- _] & Hc'). congruence.
      * split; [|reflexivity]. intros _. exists c, rest. split; [reflexivity | exact Hc].
  - exists false. split; [reflexivity|]. split; [discriminate|].
    intros (c & rest & -> & _). discriminate Hs.
Qed.

Lemma command_names_spec (lines : list string) :
  Forall no_trailing_space lines ->
  exists names,
    command_names lines = Return names /\
    forall c, c ∈ names <->
      exists line, line ∈ lines /\ indented_by_two line /\ c = command_name line.
Proof.
  induction 1 as [|line lines Hline _ (names & Hn & Hspec)]; simpl.
  - exists []. split; [reflexivity|]. intros c. rewrite elem_of_nil.
    split; [tauto|]. intros (line & H & _). apply elem_of_nil in H. exact H.
  - destruct (is_command_line_spec line Hline) as (keep & -> & Hkeep). simpl.
    rewrite Hn. simpl. eexists. split; [reflexivity|]. intros c.
    assert (Hrest : (exists l, l ∈ line :: lines /\ indented_by_two l /\ c = command_name l) <->
                    (indented_by_two line /\ c = command_name line) \/ c ∈ names).
    { rewrite Hspec. split.
      - intros (l & [->|Hl]%elem_of_cons & Hi & Hc); [left; auto | right; eauto].
      - intros [[Hi Hc] | (l & Hl & Hi & Hc)].
        + exists line. rewrite elem_of_cons. auto.
        + exists l. rewrite elem_of_cons. auto. }
    rewrite Hrest. destruct keep.
    + rewrite elem_of_cons. intuition.
    + split; [auto|]. intros [[Hi _] | H]; [|exact H].
      apply Hkeep in Hi. discriminate.
Qed.

Lemma denied_spec (c : string) :
  denied c = false <-> forall p, p ∈ denylist -> ~ has_prefix p c.
Proof.
  unfold denied, has_prefix. split.
  - intros H p Hp Hpre. apply startswith_spec in Hpre.
    assert (existsb (startswith c) denylist = true) as Ht; [|congruence].
    apply existsb_exists. exists p. split; [apply list_elem_of_In, Hp | exact Hpre].
  - intros H. apply not_true_is_false. intros (p & Hp & Hs)%existsb_exists.
    apply (H p); [apply list_elem_of_In, Hp | apply startswith_spec, Hs].
Qed.

Lemma rstripped_lines (ls : list string) : Forall no_trailing_space (map rstrip ls).
Proof. induction ls; constructor; [apply rstrip_no_trailing_space | assumption]. Qed.

(** What [listing_commands] returns once the marker has been found. *)
Lemma listing_commands_found (stdout text : string) (i : nat) :
  decode_utf8 stdout = Return text ->
  index (map rstrip (split text nl)) "plugins:" = Return i ->
  exists commands,
    listing_commands stdout = Return commands /\
    forall c, c ∈ commands <->
      exists line tok,
        line ∈ drop (S i) (map rstrip (split text nl)) /\
        indented_by_two line /\
        first_token " - " line tok /\
        c = strip tok /\
        forall p, p ∈ denylist -> ~ has_prefix p c.
Proof.
  intros Hd Hi. unfold listing_commands. rewrite Hd. simpl. rewrite Hi. simpl.
  rewrite Nat.add_1_r.
  destruct (command_names_spec (drop (S i) (map rstrip (split text nl))))
    as (names & -> & Hnames); [apply Forall_drop, rstripped_lines|].
  simpl. eexists. split; [reflexivity|]. intros c.
  rewrite list_elem_of_filter, Hnames, negb_true_iff, denied_spec. split.
  - intros (Hden & line & Hl & Hind & ->).
    exists line, (before " - " line). repeat split; auto.
    + apply before_first_token.
    + unfold command_name. rewrite hd_split. reflexivity.
  - intros (line & tok & Hl & Hind & Htok & -> & Hden). split; [exact Hden|].
    exists line. repeat split; auto. symmetry. apply command_name_spec, Htok.
Qed.

(** C7. Once the marker line is found (at its first position [i]
    among the right-trimmed lines), the enumerator returns the names
    [c] for which there is a later line that starts with exactly two
    blanks, whose token before the first " - " trims to [c], and such
    that no entry of the denylist is a prefix of [c].  On the listing
    of the example it returns [reveal] alone; a line with three blanks
    is skipped and a denied word inside a name does not count. *)
Theorem enumerator_selects_commands :
  (forall stdout text i,
     decode_utf8 stdout = Return text ->
     map rstrip (split text nl) !! i = Some "plugins:" ->
     (forall j, j < i -> map rstrip (split text nl) !! j <> Some "plugins:") ->
     exists commands,
       listing_commands stdout = Return commands /\
       forall c, c ∈ commands <->
         exists line tok,
           line ∈ drop (S i) (map rstrip (split text nl)) /\
           indented_by_two line /\
           first_token " - " line tok /\
           c = strip tok /\
           forall p, p ∈ denylist -> ~ has_prefix p c) /\
  listing_commands sample_listing = Return ["reveal"] /\
  listing_commands mixed_listing = Return ["reveal"; "xdevel/foo"] /\
  (get_commands sample_env (Some (DFInstance_run sample_env)) sample_world).2 = Return ["reveal"].
Proof.
  split; [|repeat split; reflexivity].
  intros stdout text i Hd Hi Hmin.
  apply (listing_commands_found stdout text i Hd).
  apply index_spec. split; assumption.
Qed.

(** [get_commands] with a supervisor: the answer to [ls -a] is parsed,
    and a failure of the call is passed on. *)
Lemma get_commands_with (E : Env) (hack : list string -> bool -> M CompletedProcess.t)
    (w : world) :
  get_commands E (Some hack) w =
  match hack ["ls"; "-a"] true w with
  | (w', Raise e) => (w', Raise e)
  | (w', Return p) => (w', listing_commands (CompletedProcess.stdout p))
  end.
Proof.
  unfold get_commands. rewrite bind_at.
  destruct (hack ["ls"; "-a"] true w) as [w' [e|p]]; reflexivity.
Qed.

(** C6, as the program has it.  When no line of the answer equals
    "plugins:" after the trailing white space of the line is removed,
    [get_commands] raises and returns no list, neither an empty nor a
    partial one: it raises the [ValueError] of [list.index] when the
    answer is valid UTF-8, and the [UnicodeDecodeError] of [decode] when
    it is not (such an answer has no lines at all). *)
Theorem missing_marker_raises (E : Env) (hack : list string -> bool -> M CompletedProcess.t)
    (w w' : world) (p : CompletedProcess.t) :
  hack ["ls"; "-a"] true w = (w', Return p) ->
  (forall text line,
     decode_utf8 (CompletedProcess.stdout p) = Return text ->
     line ∈ split text nl -> rstrip line <> "plugins:") ->
  get_commands E (Some hack) w =
  (w', Raise (match decode_utf8 (CompletedProcess.stdout p) with
              | Return _ => ValueError
              | Raise _ => UnicodeDecodeError
              end)).
Proof.
  intros Hhack Hno. rewrite get_commands_with, Hhack. unfold listing_commands.
  destruct (decode_utf8 (CompletedProcess.stdout p)) as [e|text] eqn:Hd; simpl.
  - rewrite (decode_utf8_raises _ _ Hd). reflexivity.
  - rewrite index_absent; [reflexivity|].
    intros (line & Heq & Hin)%list_elem_of_In%in_map_iff.
    apply (Hno text line eq_refl); [apply list_elem_of_In, Hin | exact Heq].
Qed.

End EnumeratorFacts.

Lemma enumerator_selects_commands_witness :
  exists commands,
    listing_commands sample_listing = Return commands /\
    forall c, c ∈ commands <->
      exists line tok,
        line ∈ drop 1 (map rstrip (split sample_listing nl)) /\
        indented_by_two line /\
        first_token " - " line tok /\
        c = strip tok /\
        forall p, p ∈ denylist -> ~ has_prefix p c.
Proof.
  apply (proj1 enumerator_selects_commands sample_listing sample_listing 0);
    [reflexivity | reflexivity | intros j Hj; lia].
Defined.

Lemma missing_marker_raises_witness :
  get_commands sample_env
    (Some (fun _ _ => ret {| CompletedProcess.returncode := 0;
                             CompletedProcess.stdout := "no marker here" |}))
    sample_world = (sample_world, Raise ValueError) /\
  get_commands sample_env
    (Some (fun _ _ => ret {| CompletedProcess.returncode := 0;
                             CompletedProcess.stdout := String (ascii_of_nat 255) "plugins:" |}))
    sample_world = (sample_world, Raise UnicodeDecodeError).
Proof.
  split.
  - apply (missing_marker_raises sample_env _ sample_world sample_world
             {| CompletedProcess.returncode := 0; CompletedProcess.stdout := "no marker here" |});
      [reflexivity|].
    intros text line [= <-] [->|H]%elem_of_cons; [discriminate|].
    apply elem_of_nil in H. destruct H.
  - apply (missing_marker_raises sample_env _ sample_world sample_world
             {| CompletedProcess.returncode := 0;
                CompletedProcess.stdout := String (ascii_of_nat 255) "plugins:" |});
      [reflexivity|].
    intros text line Hd. discriminate Hd.
Defined.

(** C6, as the specification words it, fails: in [blank_after_marker] no
    line equals "plugins:" (the marker line carries a trailing blank), yet
    the enumerator finds the marker and returns [reveal]. *)
Lemma marker_with_trailing_blank_is_found :
  ~ (forall (hack : list string -> bool -> M CompletedProcess.t) w w' p text,
       hack ["ls"; "-a"] true w = (w', Return p) ->
       decode_utf8 (CompletedProcess.stdout p) = Return text ->
       "plugins:" ∉ split text nl ->
       exists e, get_commands sample_env (Some hack) w = (w', Raise e)).
Proof.
  intros H.
  assert (Hno : "plugins:" ∉ split blank_after_marker nl)
    by (apply (bool_decide_unpack _); vm_compute; exact I).
  destruct (H (fun _ _ => ret {| CompletedProcess.returncode := 0;
                                 CompletedProcess.stdout := blank_after_marker |})
              sample_world sample_world _ blank_after_marker eq_refl eq_refl Hno) as [e He].
  vm_compute in He. discriminate He.
Qed.

(** ** The driver loop *)

Section DriverFacts.

Lemma in_bucket_record (results : gmap string (gmap string string))
    (key cmd out k c : string) :
  in_bucket (record results key cmd out) k c <->
  (k = key /\ c = cmd) \/ in_bucket results k c.
Proof.
  unfold in_bucket, record. destruct (decide (k = key)) as [->|Hk].
  - rewrite lookup_insert_eq. split.
    + intros (b & [= <-] & Hc).
      destruct (decide (c = cmd)) as [->|Hc']; [left; auto|].
      rewrite lookup_insert_ne in Hc by congruence. right.
      destruct (results !! key) as [b|]; simpl in Hc.
      * exists b. auto.
      * rewrite lookup_empty in Hc. destruct Hc as [? Hc]. discriminate.
    + intros [[_ ->] | (b & Hb & Hc)]; eexists; (split; [reflexivity|]).
      * rewrite lookup_insert_eq. eauto.
      * rewrite Hb. simpl. destruct (decide (c = cmd)) as [->|Hc'].
        -- rewrite lookup_insert_eq. eauto.
        -- rewrite lookup_insert_ne by congruence. exact Hc.
  - rewrite lookup_insert_ne by congruence. split; [auto|].
    intros [[Hc _] | H]; [congruence | exact H].
Qed.

Lemma record_keys (results : gmap string (gmap string string)) (key cmd out k : string) :
  is_Some (record results key cmd out !! k) -> k = key \/ is_Some (results !! k).
Proof.
  unfold record. destruct (decide (k = key)) as [->|Hk]; [auto|].
  rewrite lookup_insert_ne by congruence. auto.
Qed.

(** Recording a command that is in no bucket yet keeps the partition. *)
Lemma partitions_record (D : string -> Prop) (results : gmap string (gmap string string))
    (c : OutcomeCategory) (cmd out : string) :
  partitions_set D results ->
  ~ D cmd ->
  partitions_set (fun x => x = cmd \/ D x) (record results (bucket_name c) cmd out).
Proof.
  intros (Hcover & Huniq & Hkeys) Hfresh. split; [|split].
  - intros x. rewrite Hcover. split.
    + intros [-> | [k Hk]].
      * exists (bucket_name c). apply in_bucket_record. auto.
      * exists k. apply in_bucket_record. auto.
    + intros [k [[_ ->] | Hk]%in_bucket_record]; [auto | right; eauto].
  - intros x k1 k2 [[-> ->] | H1]%in_bucket_record [[-> Hx] | H2]%in_bucket_record.
    + reflexivity.
    + destruct Hfresh. apply Hcover. eauto.
    + subst x. destruct Hfresh. apply Hcover. eauto.
    + eauto.
  - intros k [-> | Hk]%record_keys; eauto.
Qed.

Lemma partitions_empty : partitions_set (fun _ => False) ∅.
Proof.
  split; [|split].
  - intros cmd. split; [tauto|]. intros (k & b & Hb & _).
    rewrite lookup_empty in Hb. discriminate.
  - intros cmd k1 k2 (b & Hb & _). rewrite lookup_empty in Hb. discriminate.
  - intros k [b Hb]. rewrite lookup_empty in Hb. discriminate.
Qed.

Lemma partitions_set_ext (D D' : string -> Prop) (report : gmap string (gmap string string)) :
  (forall x, D x <-> D' x) -> partitions_set D report -> partitions_set D' report.
Proof.
  intros Hext (Hcover & Huniq & Hkeys). split; [|split]; auto.
  intros x. rewrite <- Hext. apply Hcover.
Qed.

Context (hack : list string -> bool -> M CompletedProcess.t).

Lemma check_loop_cons (cmd : string) (rest : list string)
    (results : gmap string (gmap string string)) (w : world) :
  check_loop hack (cmd :: rest) results w =
  match hack [cmd] true w with
  | (w1, Raise e) => (w1, Raise e)
  | (w1, Return proc) =>
      match decode_utf8 (CompletedProcess.stdout proc) with
      | Raise e => (w1, Raise e)
      | Return text =>
          let out := replace text crlf nl in
          check_loop hack rest
            (record results
               (bucket_name (classify cmd (CompletedProcess.returncode proc) out)) cmd out) w1
      end
  end.
Proof.
  cbn [check_loop]. rewrite bind_at. destruct (hack [cmd] true w) as [w1 [e|proc]]; [reflexivity|].
  rewrite bind_at. unfold lift. destruct (decode_utf8 _); reflexivity.
Qed.

Lemma check_loop_partitions (commands : list string) :
  forall (D : string -> Prop) (results : gmap string (gmap string string)) (w w' : world)
         (report : gmap string (gmap string string)),
    NoDup commands ->
    (forall cmd, cmd ∈ commands -> ~ D cmd) ->
    partitions_set D results ->
    check_loop hack commands results w = (w', Return report) ->
    partitions_set (fun x => D x \/ x ∈ commands) report.
Proof.
  induction commands as [|cmd rest IH]; intros D results w w' report Hnd Hfresh Hpart Hloop.
  - injection Hloop as _ <-. revert Hpart. apply partitions_set_ext.
    intros x. rewrite elem_of_nil. tauto.
  - rewrite check_loop_cons in Hloop.
    destruct (hack [cmd] true w) as [w1 [e|proc]]; [discriminate|].
    destruct (decode_utf8 _) as [e|text]; [discriminate|].
    apply NoDup_cons in Hnd as [Hnotin Hnd].
    eapply IH in Hloop; [| exact Hnd | | apply partitions_record; [exact Hpart|]].
    + revert Hloop. apply partitions_set_ext. intros x. rewrite elem_of_cons. tauto.
    + intros x Hx [-> | HD]; [contradiction|].
      apply (Hfresh x); [apply elem_of_cons; auto | exact HD].
    + apply Hfresh, elem_of_cons. auto.
Qed.

Lemma check_loop_returns (commands : list string) :
  (forall cmd w0, cmd ∈ commands ->
     exists w1 proc text,
       hack [cmd] true w0 = (w1, Return proc) /\
       decode_utf8 (CompletedProcess.stdout proc) = Return text) ->
  forall results w, exists w' report, check_loop hack commands results w = (w', Return report).
Proof.
  induction commands as [|cmd rest IH]; intros Hhack results w.
  - exists w, results. reflexivity.
  - rewrite check_loop_cons.
    destruct (Hhack cmd w) as (w1 & proc & text & -> & ->); [apply elem_of_cons; auto|].
    apply IH. intros c w0 Hc. apply Hhack, elem_of_cons. auto.
Qed.

(** C5. For a list of command names without duplicates, every report
    the loop returns partitions the list: a name is a key of some
    bucket exactly when it is in the list, no name is a key of two
    buckets, and the buckets are buckets of outcome categories.  The
    loop does return a report whenever every call returns and its
    output decodes. *)
Theorem report_partitions_commands (commands : list string) (w : world) :
  NoDup commands ->
  (forall w' report,
     check_loop hack commands ∅ w = (w', Return report) -> partitions commands report) /\
  ((forall cmd w0, cmd ∈ commands ->
      exists w1 proc text,
        hack [cmd] true w0 = (w1, Return proc) /\
        decode_utf8 (CompletedProcess.stdout proc) = Return text) ->
   exists w' report, check_loop hack commands ∅ w = (w', Return report)).
Proof.
  intros Hnd. split.
  - intros w' report Hloop.
    eapply check_loop_partitions in Hloop; [| exact Hnd | | apply partitions_empty].
    + revert Hloop. apply partitions_set_ext. tauto.
    + tauto.
  - intros Hhack. apply check_loop_returns, Hhack.
Qed.

End DriverFacts.

(** The report [check] returns is the report of the loop over the
    commands [get_commands] has found, so it partitions them when the
    listing names no command twice. *)
Lemma check_report_partitions (E : Env) (glob_pattern : option string)
    (tr tr' : list event) (report : gmap string (gmap string string)) :
  check E glob_pattern tr = (tr', Return report) ->
  exists inst w1 w2 commands,
    DFInstance_init E glob_pattern tr = (tr, Return inst) /\
    get_commands E (Some (DFInstance_run E)) {| self := inst; trace := tr |}
      = (w1, Return commands) /\
    check_loop (DFInstance_run E) commands ∅ w1 = (w2, Return report) /\
    (NoDup commands -> partitions commands report).
Proof.
  unfold check. rewrite bind_at. unfold with_DFInstance.
  assert (Hinit : (DFInstance_init E glob_pattern tr).1 = tr)
    by (unfold DFInstance_init; destruct (glob E tr _); reflexivity).
  destruct (DFInstance_init E glob_pattern tr) as [tr0 [e|inst]]; [discriminate|].
  simpl in Hinit. subst tr0. rewrite bind_at.
  destruct (get_commands E _ _) as [w1 [e|commands]] eqn:Hget.
  - destruct (DFInstance_exit E w1) as [w2 [e'|x]]; discriminate.
  - destruct (check_loop (DFInstance_run E) commands ∅ w1) as [w2 [e|rep]] eqn:Hloop.
    + destruct (DFInstance_exit E w2) as [w3 [e'|x]]; discriminate.
    + destruct (DFInstance_exit E w2) as [w3 [e'|x]]; [discriminate|].
      rewrite !bind_at. simpl. intros [= _ <-].
      exists inst, w1, w2, commands.
      split; [reflexivity|]. split; [exact Hget|]. split; [exact Hloop|].
      intros Hnd. eapply check_loop_partitions in Hloop;
        [| exact Hnd | | apply partitions_empty]; [|tauto].
      revert Hloop. apply partitions_set_ext. tauto.
Qed.

Lemma report_partitions_commands_witness :
  exists w' report,
    check_loop (DFInstance_run sample_env) scenario_commands ∅ sample_world = (w', Return report) /\
    partitions scenario_commands report.
Proof.
  destruct (report_partitions_commands (DFInstance_run sample_env) scenario_commands sample_world)
    as [Hpart Hreturns].
  - apply (bool_decide_unpack _). vm_compute. exact I.
  - destruct Hreturns as (w' & report & Hloop).
    + intros cmd [[exe dr [[[rc|]]|]] tr] Hin.
      all: repeat (apply elem_of_cons in Hin; destruct Hin as [->|Hin]).
      all: try (apply elem_of_nil in Hin; destruct Hin).
      all: eexists _, _, _; split; [vm_compute; reflexivity | reflexivity].
    + exists w', report. split; [exact Hloop | exact (Hpart _ _ Hloop)].
Defined.

(** The report of the scenario: one command in each of four buckets. *)
Example scenario_report :
  match (check_loop (DFInstance_run sample_env) scenario_commands ∅ sample_world).2 with
  | Return report =>
      map (fun key => (key, (fun bucket => map fst (map_to_list bucket)) <$> report !! key))
          (map bucket_name [Ok; ScriptTraceback; Crashed; WrongContext; Failed])
  | Raise _ => []
  end =
  [ ("ok", Some ["reveal"]);
    ("script_traceback", Some ["quickfort"]);
    ("crashed_DF", Some ["crashy"]);
    ("wrong_UI_context", Some ["gui/foo"]);
    ("failed", None) ].
Proof. vm_compute. reflexivity. Qed.

(** The whole run on the sample world: the listing yields [reveal] alone. *)
Example check_sample_world :
  match (check sample_env None []).2 with
  | Return report => (fun bucket => map_to_list bucket) <$> report !! "ok"
  | Raise _ => None
  end = Some [("reveal", "")].
Proof. vm_compute. reflexivity. Qed.

(** * Further properties *)

(** ** The supervisor: launching, answering, shutting down *)

Section SupervisorMore.
Context (E : Env).

#[local] Arguments not_running : simpl never.
#[local] Arguments startswith : simpl never.
#[local] Arguments run : simpl never.

Ltac exec :=
  unfold launch_event, save_dir, call_event, with_proc, fresh_handle, handle_after,
    no_save_warning in *;
  unfold open, open_with, subprocess_Popen, subprocess_run, bind, ask, emit, ret, raise,
    lift, get_self, set_proc, win_prelude, creation_flags in *;
  simpl in *.

Ltac tidy := simpl in *; rewrite ?app_nil_r in *; repeat rewrite <- app_assoc; simpl in *.

(** X1. When the host cannot be started, [open] raises [OSError] and the
    instance is as before (the handle is not set, so the next call tries
    again); [run] gives up there, before the command is sent: the trace
    ends with the failed launch. *)
Theorem launch_failure_sends_nothing (d : nat) (w : world) :
  not_running (_proc (self w)) = true ->
  spawn_fails E (trace w ++ win_prelude E)
    [_df_exe (self w)] (dirname E (_df_exe (self w))) (creation_flags E) = true ->
  open E d w =
    ({| self := self w; trace := trace w ++ win_prelude E ++ [launch_event E (self w)] |},
     Raise OSError) /\
  forall c cs safe,
    run E (S d) (c :: cs) safe w =
    ({| self := self w; trace := trace w ++ win_prelude E ++ [launch_event E (self w)] |},
     Raise OSError).
Proof.
  intros Hdead Hfail.
  assert (Hopen : open E d w =
    ({| self := self w; trace := trace w ++ win_prelude E ++ [launch_event E (self w)] |},
     Raise OSError)).
  { destruct w as [me tr]. exec.
    destruct (startswith (platform E) "win"); tidy; rewrite Hdead; simpl;
      rewrite Hfail; tidy; reflexivity. }
  split; [exact Hopen|]. intros c cs safe. rewrite run_S, bind_at, Hopen. reflexivity.
Qed.

(** X2. Launching without a [region1] save: the handle is set, the
    warning is printed, and nothing is sent to the host nor waited for. *)
Theorem open_without_save_warns (d : nat) (w : world) :
  not_running (_proc (self w)) = true ->
  spawn_fails E (trace w ++ win_prelude E)
    [_df_exe (self w)] (dirname E (_df_exe (self w))) (creation_flags E) = false ->
  isdir E (trace w ++ win_prelude E ++ [launch_event E (self w)]) (save_dir E (self w)) = false ->
  open E d w =
    ({| self := with_proc (self w) (Some fresh_handle);
        trace := trace w ++ win_prelude E ++
                 [launch_event E (self w); Print no_save_warning] |},
     Return tt).
Proof.
  intros Hdead Hspawn Hdir. destruct w as [me tr]. exec.
  destruct (startswith (platform E) "win"); tidy; rewrite Hdead; simpl;
    rewrite Hspawn; tidy; rewrite Hdir; tidy; reflexivity.
Qed.




Lemma kept_refl (w : world) : kept w w.
Proof. repeat split; auto. exists []. symmetry. apply app_nil_r. Qed.

Lemma kept_trans (w1 w2 w3 : world) : kept w1 w2 -> kept w2 w3 -> kept w1 w3.
Proof.
  intros (He1 & Hr1 & Hp1 & tl1 & Ht1) (He2 & Hr2 & Hp2 & tl2 & Ht2).
  split; [congruence|]. split; [congruence|]. split.
  - destruct Hp2 as [H|[H|H]]; [auto | rewrite H; exact Hp1 | auto].
  - exists (tl1 ++ tl2). rewrite Ht2, Ht1, app_assoc. reflexivity.
Qed.

Lemma kept_step (me : DFInstance) (tr tl : list event) (p : option Popen.t) (w : world) :
  _df_exe me = _df_exe (self w) ->
  _dfhack_run me = _dfhack_run (self w) ->
  p = None \/ p = _proc (self w) \/ p = Some fresh_handle ->
  tr = trace w ++ tl ->
  kept w {| self := with_proc me p; trace := tr |}.
Proof. intros He Hr Hp ->. repeat split; simpl; eauto. Qed.

Ltac kstep me :=
  eapply (kept_step me); simpl; auto;
  solve [ symmetry; apply app_nil_r
        | repeat rewrite <- app_assoc; reflexivity ].

Lemma open_with_kept (r : list string -> bool -> M CompletedProcess.t) :
  (forall w, kept w (r ["load-save"; "region1"] false w).1) ->
  forall w, kept w (open_with E r w).1.
Proof.
  intros Hr [[exe dr p] tr]. exec.
  destruct (startswith (platform E) "win"); simpl;
    (destruct (not_running p); simpl; [|kstep (Build_DFInstance exe dr p)]);
    (destruct (spawn_fails E _ _ _ _); simpl; [kstep (Build_DFInstance exe dr p)|]);
    (destruct (isdir E _ _); simpl; [|kstep (Build_DFInstance exe dr p)]);
    match goal with |- context [?f ["load-save"; "region1"] false ?w0] =>
      pose proof (Hr w0) as Hk; destruct (f ["load-save"; "region1"] false w0) as [w3 [e|x]]
    end; simpl in *;
    (eapply kept_trans; [|eapply kept_trans; [exact Hk|]]).
  all: try kstep (Build_DFInstance exe dr p).
  all: first [ apply kept_refl
             | destruct w3 as [[exe3 dr3 p3] tr3]; kstep (Build_DFInstance exe3 dr3 p3) ].
Qed.

Lemma run_kept (d : nat) (commands : list string) (safe : bool) (w : world) :
  kept w (run E d commands safe w).1.
Proof.
  revert commands safe w. induction d as [|d IH]; intros commands safe w; [apply kept_refl|].
  rewrite run_S. destruct commands as [|c cs]; [apply kept_refl|].
  rewrite bind_at. unfold open.
  pose proof (open_with_kept (run E d) (fun w0 => IH _ false w0) w) as Ho.
  destruct (open_with E (run E d) w) as [w1 [e|[]]]; simpl in *; [exact Ho|].
  eapply kept_trans; [exact Ho|]. destruct w1 as [[exe dr p] tr]. exec.
  destruct (answer E _ _) as [out|]; simpl;
    [destruct (startswith _ sentinel); simpl|];
    kstep (Build_DFInstance exe dr p).
Qed.

(** X5. Whatever happens (also when an exception is raised), [run] and
    [open] leave the two executable paths of the instance alone, only
    append to the trace of events, and leave as handle the old one, a
    fresh one (return code [None]) or none: a handle with a return code
    is never stored. *)
Theorem run_keeps_instance (d : nat) (commands : list string) (safe : bool) (w : world) :
  kept w (run E d commands safe w).1 /\ kept w (open E d w).1.
Proof.
  split; [apply run_kept|]. apply open_with_kept. intros w0. apply run_kept.
Qed.

End SupervisorMore.

(** ** The enumerator: order, subscripts, names *)

Section EnumeratorMore.

#[local] Arguments startswith : simpl never.

Lemma command_names_filter (lines : list string) :
  Forall no_trailing_space lines ->
  command_names lines =
  Return (map command_name (filter (fun l => two_blank_indent l = true) lines)).
Proof.
  induction 1 as [|line lines Hline _ IH]; [reflexivity|].
  assert (Hb : is_command_line line = Return (two_blank_indent line)).
  { unfold is_command_line, two_blank_indent.
    destruct (startswith line "  ") eqn:Hs; [|reflexivity].
    apply startswith_spec in Hs as [r ->]. destruct r as [|c rest].
    - specialize (Hline "" "  " eq_refl eq_refl). discriminate.
    - change ("  " +:+ String c rest) with (String SP (String SP (String c rest))).
      rewrite item_2. cbn [rbind]. rewrite third_is_blank. reflexivity. }
  cbn [command_names]. rewrite IH, Hb, filter_cons. simpl.
  destruct (two_blank_indent line);
    [rewrite decide_True by reflexivity | rewrite decide_False by discriminate];
    reflexivity.
Qed.

Lemma index_found (l : list string) (x : string) :
  x ∈ l -> exists i, index l x = Return i.
Proof.
  induction l as [|y l IH]; [intros H; apply elem_of_nil in H; destruct H|].
  intros H. simpl. destruct (String.eqb_spec y x) as [->|Hyx]; [eauto|].
  apply elem_of_cons in H as [->|H]; [congruence|].
  destruct (IH H) as [i ->]. simpl. eauto.
Qed.

(** The three outcomes of parsing an answer. *)
Lemma listing_commands_cases (stdout : string) :
  (exists text commands,
     decode_utf8 stdout = Return text /\
     ("plugins:" ∈ map rstrip (split text nl)) /\
     listing_commands stdout = Return commands) \/
  (exists text,
     decode_utf8 stdout = Return text /\
     ("plugins:" ∉ map rstrip (split text nl)) /\
     listing_commands stdout = Raise ValueError) \/
  (decode_utf8 stdout = Raise UnicodeDecodeError /\
   listing_commands stdout = Raise UnicodeDecodeError).
Proof.
  unfold listing_commands.
  destruct (decode_utf8 stdout) as [e|text] eqn:Hd; simpl.
  - right. right. rewrite (decode_utf8_raises _ _ Hd). auto.
  - destruct (decide ("plugins:" ∈ map rstrip (split text nl))) as [Hin|Hno].
    + left. destruct (index_found _ _ Hin) as [i ->]. simpl.
      rewrite command_names_filter by apply Forall_drop, rstripped_lines.
      simpl. eauto.
    + right. left. rewrite (index_absent _ _ Hno). eauto.
Qed.

(** X6. When the supervisor answers [ls -a], the subscript [line[2]]
    of the comprehension is always in range, because the lines are
    right-stripped first (a line of blanks only has become empty), so
    [get_commands] does not fail with [IndexError].  It has three
    outcomes: it returns a list when the answer is valid UTF-8 and has
    a marker line; it raises [ValueError] when the answer is valid UTF-8
    and has no marker line; it raises [UnicodeDecodeError] when the
    answer is not valid UTF-8. *)
Theorem listing_subscript_in_range (E : Env) (hack : list string -> bool -> M CompletedProcess.t)
    (w w' : world) (p : CompletedProcess.t) :
  hack ["ls"; "-a"] true w = (w', Return p) ->
  (get_commands E (Some hack) w).2 <> Raise IndexError /\
  ((exists text commands,
      decode_utf8 (CompletedProcess.stdout p) = Return text /\
      ("plugins:" ∈ map rstrip (split text nl)) /\
      get_commands E (Some hack) w = (w', Return commands)) \/
   (exists text,
      decode_utf8 (CompletedProcess.stdout p) = Return text /\
      ("plugins:" ∉ map rstrip (split text nl)) /\
      get_commands E (Some hack) w = (w', Raise ValueError)) \/
   (decode_utf8 (CompletedProcess.stdout p) = Raise UnicodeDecodeError /\
    get_commands E (Some hack) w = (w', Raise UnicodeDecodeError))).
Proof.
  intros Hhack. rewrite get_commands_with, Hhack.
  destruct (listing_commands_cases (CompletedProcess.stdout p))
    as [(text & commands & Hd & Hin & ->) | [(text & Hd & Hno & ->) | [Hd ->]]].
  - split; [discriminate|]. left. eauto.
  - split; [discriminate|]. right. left. eauto.
  - split; [discriminate|]. right. right. auto.
Qed.

(** X7. The names are returned in the order of the listing, one for
    each line that passes the guard, duplicates included: the result is
    the name of every two-blank line after the first marker line, in
    order, with the denied names taken out. *)
Theorem commands_in_listing_order (E : Env) (hack : list string -> bool -> M CompletedProcess.t)
    (w w' : world) (p : CompletedProcess.t) (text : string) (i : nat) :
  hack ["ls"; "-a"] true w = (w', Return p) ->
  decode_utf8 (CompletedProcess.stdout p) = Return text ->
  map rstrip (split text nl) !! i = Some "plugins:" ->
  (forall j, j < i -> map rstrip (split text nl) !! j <> Some "plugins:") ->
  get_commands E (Some hack) w =
  (w', Return (filter (fun c => negb (denied c) = true)
                 (map command_name
                    (filter (fun l => two_blank_indent l = true)
                       (drop (S i) (map rstrip (split text nl))))))).
Proof.
  intros Hhack Hd Hi Hmin. rewrite get_commands_with, Hhack.
  unfold listing_commands. rewrite Hd. simpl.
  rewrite (proj2 (index_spec _ _ i) (conj Hi Hmin)). simpl.
  rewrite Nat.add_1_r, command_names_filter by apply Forall_drop, rstripped_lines.
  reflexivity.
Qed.

Lemma contains_strip (needle s : string) :
  contains needle (strip s) = true -> contains needle s = true.
Proof.
  rewrite !contains_spec. intros (a & b & H).
  destruct (strip_spec s) as (l & r & Hs & _).
  exists (l +:+ a), (b +:+ r). rewrite Hs, H, !append_assoc. reflexivity.
Qed.

Lemma first_token_no_separator (c0 : ascii) (sep0 s tok : string) :
  first_token (String c0 sep0) s tok -> contains (String c0 sep0) tok = false.
Proof.
  intros H. apply not_true_is_false. intros (a & b & Hab)%contains_spec.
  destruct H as [(rest & Hs & Hmin) | (-> & Hnone)].
  - specialize (Hmin a (b +:+ String c0 sep0 +:+ rest)).
    rewrite Hs, Hab, !append_assoc in Hmin. specialize (Hmin eq_refl).
    rewrite !length_append in Hmin. simpl in Hmin. lia.
  - destruct (Hnone _ _ Hab).
Qed.

(** X8. Every name [get_commands] returns from the answer of a
    supervisor is trimmed (stripping it again changes nothing), does not
    contain the separator " - ", and starts with none of the denied
    prefixes. *)
Theorem returned_names_are_clean (E : Env) (hack : list string -> bool -> M CompletedProcess.t)
    (w w' : world) (commands : list string) (c : string) :
  get_commands E (Some hack) w = (w', Return commands) ->
  c ∈ commands ->
  strip c = c /\ contains " - " c = false /\ denied c = false.
Proof.
  rewrite get_commands_with.
  destruct (hack ["ls"; "-a"] true w) as [w1 [e|p]]; [discriminate|].
  set (stdout := CompletedProcess.stdout p). intros [= _ Hret] Hc.
  destruct (decode_utf8 stdout) as [e|text] eqn:Hd;
    [unfold listing_commands in Hret; rewrite Hd in Hret; discriminate|].
  destruct (index (map rstrip (split text nl)) "plugins:") as [e|i] eqn:Hi;
    [unfold listing_commands in Hret; rewrite Hd in Hret; simpl in Hret;
     rewrite Hi in Hret; discriminate|].
  destruct (listing_commands_found stdout text i Hd Hi) as (commands' & Hret' & Hspec).
  rewrite Hret in Hret'. injection Hret' as <-.
  destruct (proj1 (Hspec c) Hc) as (line & tok & _ & _ & Htok & Hceq & Hden). subst c.
  split; [apply strip_idempotent|]. split.
  - apply not_true_is_false. intros H%contains_strip.
    rewrite (first_token_no_separator _ _ _ _ Htok) in H. discriminate.
  - apply denied_spec, Hden.
Qed.

End EnumeratorMore.

Lemma listing_subscript_in_range_witness :
  (get_commands sample_env (Some (fun _ _ => ret blank_lines_answer)) sample_world).2
    <> Raise IndexError /\
  ((exists text commands,
      decode_utf8 (CompletedProcess.stdout blank_lines_answer) = Return text /\
      ("plugins:" ∈ map rstrip (split text nl)) /\
      get_commands sample_env (Some (fun _ _ => ret blank_lines_answer)) sample_world
        = (sample_world, Return commands)) \/
   (exists text,
      decode_utf8 (CompletedProcess.stdout blank_lines_answer) = Return text /\
      ("plugins:" ∉ map rstrip (split text nl)) /\
      get_commands sample_env (Some (fun _ _ => ret blank_lines_answer)) sample_world
        = (sample_world, Raise ValueError)) \/
   (decode_utf8 (CompletedProcess.stdout blank_lines_answer) = Raise UnicodeDecodeError /\
    get_commands sample_env (Some (fun _ _ => ret blank_lines_answer)) sample_world
      = (sample_world, Raise UnicodeDecodeError))).
Proof.
  apply (listing_subscript_in_range sample_env (fun _ _ => ret blank_lines_answer)
           sample_world sample_world blank_lines_answer).
  reflexivity.
Defined.

Lemma returned_names_are_clean_witness :
  strip "reveal" = "reveal" /\ contains " - " "reveal" = false /\ denied "reveal" = false.
Proof.
  apply (returned_names_are_clean sample_env
           (fun _ _ => ret {| CompletedProcess.returncode := 0;
                              CompletedProcess.stdout := sample_listing |})
           sample_world sample_world ["reveal"] "reveal");
    [reflexivity | apply list_elem_of_In; left; reflexivity].
Defined.

Lemma commands_in_listing_order_witness :
  get_commands sample_env
    (Some (fun _ _ => ret {| CompletedProcess.returncode := 0;
                             CompletedProcess.stdout := mixed_listing |}))
    sample_world = (sample_world, Return ["reveal"; "xdevel/foo"]).
Proof.
  rewrite (commands_in_listing_order sample_env _ sample_world sample_world
             {| CompletedProcess.returncode := 0; CompletedProcess.stdout := mixed_listing |}
             mixed_listing 0);
    [reflexivity | reflexivity | reflexivity | reflexivity | intros j Hj; lia].
Defined.

(** The lines of blanks of [blank_lines_answer] are skipped and the
    arrow in the description does not matter. *)
Example blank_lines_listing :
  listing_commands (CompletedProcess.stdout blank_lines_answer) = Return ["reveal"; "zone"].
Proof. reflexivity. Qed.

(** ** The driver loop: what the report holds *)

Section DriverMore.

Lemma stored_record_new (results : gmap string (gmap string string)) (key cmd out : string) :
  stored (record results key cmd out) key cmd out.
Proof.
  unfold stored, record. eexists. rewrite lookup_insert_eq. split; [reflexivity|].
  apply lookup_insert_eq.
Qed.

Lemma stored_record_old (results : gmap string (gmap string string))
    (key cmd out k c o : string) :
  c <> cmd -> stored results k c o -> stored (record results key cmd out) k c o.
Proof.
  intros Hc (b & Hb & Ho). unfold stored, record.
  destruct (decide (k = key)) as [->|Hk].
  - rewrite lookup_insert_eq, Hb. eexists. split; [reflexivity|]. simpl.
    rewrite lookup_insert_ne by congruence. exact Ho.
  - rewrite lookup_insert_ne by congruence. eauto.
Qed.

Context (hack : list string -> bool -> M CompletedProcess.t).

Lemma check_loop_keeps_entries (commands : list string) :
  forall (results : gmap string (gmap string string)) (w w' : world)
         (report : gmap string (gmap string string)) (k c o : string),
    check_loop hack commands results w = (w', Return report) ->
    c ∉ commands ->
    stored results k c o -> stored report k c o.
Proof.
  induction commands as [|cmd rest IH]; intros results w w' report k c o Hloop Hc Hs.
  - injection Hloop as _ <-. exact Hs.
  - rewrite check_loop_cons in Hloop.
    destruct (hack [cmd] true w) as [w1 [e|proc]]; [discriminate|].
    destruct (decode_utf8 _) as [e|text]; [discriminate|].
    apply not_elem_of_cons in Hc as [Hne Hc].
    eapply IH; [exact Hloop | exact Hc |]. apply stored_record_old; assumption.
Qed.

Lemma check_loop_app (pre rest : list string) :
  forall (results : gmap string (gmap string string)) (w : world),
    check_loop hack (pre ++ rest) results w =
    match check_loop hack pre results w with
    | (w0, Raise e) => (w0, Raise e)
    | (w0, Return r0) => check_loop hack rest r0 w0
    end.
Proof.
  induction pre as [|c pre IH]; intros results w; [reflexivity|].
  rewrite <- app_comm_cons, !check_loop_cons.
  destruct (hack [c] true w) as [w1 [e|proc]]; [reflexivity|].
  destruct (decode_utf8 _) as [e|text]; [reflexivity|]. apply IH.
Qed.

(** X9. For a list of command names without duplicates, the report
    holds for every command the output of its own call: the call made in
    the world [w0] that the loop has reached after the commands before
    it.  The output is stored decoded and with CR LF turned into LF, in
    the bucket that this output and the exit code of the call classify
    to. *)
Theorem report_stores_outputs (pre post : list string) (cmd : string) :
  forall (results : gmap string (gmap string string)) (w w' : world)
         (report : gmap string (gmap string string)),
    NoDup (pre ++ cmd :: post) ->
    check_loop hack (pre ++ cmd :: post) results w = (w', Return report) ->
    exists w0 r0 w1 proc text,
      check_loop hack pre results w = (w0, Return r0) /\
      hack [cmd] true w0 = (w1, Return proc) /\
      decode_utf8 (CompletedProcess.stdout proc) = Return text /\
      let out := replace text crlf nl in
      let key := bucket_name (classify cmd (CompletedProcess.returncode proc) out) in
      check_loop hack post (record r0 key cmd out) w1 = (w', Return report) /\
      stored report key cmd out.
Proof.
  intros results w w' report Hnd Hloop.
  rewrite check_loop_app in Hloop.
  destruct (check_loop hack pre results w) as [w0 [e|r0]]; [discriminate|].
  rewrite check_loop_cons in Hloop.
  destruct (hack [cmd] true w0) as [w1 [e|proc]] eqn:Hhack; [discriminate|].
  destruct (decode_utf8 _) as [e|text] eqn:Hd; [discriminate|].
  exists w0, r0, w1, proc, text.
  split; [reflexivity|]. split; [exact Hhack|]. split; [exact Hd|]. simpl.
  split; [exact Hloop|].
  apply NoDup_app in Hnd as (_ & _ & [Hfresh _]%NoDup_cons).
  eapply check_loop_keeps_entries; [exact Hloop | exact Hfresh | apply stored_record_new].
Qed.

Lemma total_count_insert (counts : gmap string nat) (k : string) (n : nat) :
  total_count (<[k := n]> counts) + default 0 (counts !! k) = n + total_count counts.
Proof.
  unfold total_count. destruct (counts !! k) as [old|] eqn:Hk; simpl.
  - rewrite <- insert_delete_eq.
    rewrite (map_fold_insert_L _ _ k n (delete k counts));
      [|intros; lia | apply lookup_delete_eq].
    rewrite (map_fold_delete_L _ _ k old counts); [lia | intros; lia | exact Hk].
  - rewrite (map_fold_insert_L _ _ k n counts); [lia | intros; lia | exact Hk].
Qed.

(** Recording a command that is in no bucket adds one to the total. *)
Lemma total_count_record (results : gmap string (gmap string string)) (key cmd out : string) :
  (forall k, ~ in_bucket results k cmd) ->
  total_count (size <$> record results key cmd out) = S (total_count (size <$> results)).
Proof.
  intros Hfresh. unfold record. rewrite fmap_insert.
  pose proof (total_count_insert (size <$> results) key
                (size (<[cmd := out]> (default ∅ (results !! key))))) as H.
  rewrite lookup_fmap in H.
  destruct (results !! key) as [b|] eqn:Hb; simpl in *.
  - assert (b !! cmd = None) as Hnone.
    { destruct (b !! cmd) eqn:Hc; [|reflexivity].
      destruct (Hfresh key). exists b. rewrite Hc. eauto. }
    rewrite (map_size_insert_None _ _ _ Hnone) in *. lia.
  - rewrite map_size_insert_None in * by apply lookup_empty.
    rewrite map_size_empty in *. lia.
Qed.

Lemma record_nonempty (results : gmap string (gmap string string)) (key cmd out k : string)
    (b : gmap string string) :
  (forall k b, results !! k = Some b -> b <> ∅) ->
  record results key cmd out !! k = Some b -> b <> ∅.
Proof.
  intros Hne. unfold record. destruct (decide (k = key)) as [->|Hk].
  - rewrite lookup_insert_eq. intros [= <-]. apply insert_non_empty.
  - rewrite lookup_insert_ne by congruence. apply Hne.
Qed.

Lemma check_loop_counts (commands : list string) :
  forall (D : string -> Prop) (results : gmap string (gmap string string)) (w w' : world)
         (report : gmap string (gmap string string)),
    NoDup commands ->
    (forall cmd, cmd ∈ commands -> ~ D cmd) ->
    partitions_set D results ->
    (forall k b, results !! k = Some b -> b <> ∅) ->
    check_loop hack commands results w = (w', Return report) ->
    total_count (size <$> report) = total_count (size <$> results) + length commands /\
    (forall k b, report !! k = Some b -> b <> ∅).
Proof.
  induction commands as [|cmd rest IH];
    intros D results w w' report Hnd Hfresh Hpart Hne Hloop.
  - injection Hloop as _ <-. simpl. split; [lia | exact Hne].
  - rewrite check_loop_cons in Hloop.
    destruct (hack [cmd] true w) as [w1 [e|proc]]; [discriminate|].
    destruct (decode_utf8 _) as [e|text]; [discriminate|].
    apply NoDup_cons in Hnd as [Hnotin Hnd].
    assert (HD : ~ D cmd) by (apply Hfresh, elem_of_cons; auto).
    eapply IH in Hloop; [| exact Hnd | | apply partitions_record; [exact Hpart | exact HD] |].
    + destruct Hloop as [Htot Hne']. split; [|exact Hne'].
      rewrite Htot, total_count_record; [simpl; lia|].
      intros k Hk. apply HD, Hpart. eauto.
    + intros x Hx [-> | Hx']; [contradiction|].
      apply (Hfresh x); [apply elem_of_cons; auto | exact Hx'].
    + intros k b. apply record_nonempty, Hne.
Qed.

(** X10. For a list of command names without duplicates, the bucket
    sizes that [check] prints add up to the number of commands, and no
    bucket of the report is empty (a category without commands has no
    entry at all). *)
Theorem counts_add_up (commands : list string) (w w' : world)
    (report : gmap string (gmap string string)) :
  NoDup commands ->
  check_loop hack commands ∅ w = (w', Return report) ->
  total_count (size <$> report) = length commands /\
  (forall key n, (size <$> report) !! key = Some n -> 0 < n).
Proof.
  intros Hnd Hloop.
  eapply check_loop_counts in Hloop;
    [| exact Hnd | | apply partitions_empty | intros k b; rewrite lookup_empty; discriminate];
    [|intros cmd _ []].
  destruct Hloop as [Htot Hne]. split.
  - rewrite Htot, fmap_empty. reflexivity.
  - intros key n. rewrite lookup_fmap.
    destruct (report !! key) as [b|] eqn:Hb; [|discriminate]. intros [= <-].
    apply Hne in Hb. apply map_size_non_empty_iff in Hb. lia.
Qed.

End DriverMore.

(** ** The sentinel, as the supervisor and as the classifier see it *)

Section SentinelFacts.

Lemma plain_ascii_cons (c : ascii) (p : string) :
  plain_ascii (String c p) = true ->
  (N_of_ascii c < 128)%N /\ c <> CR /\ c <> LF /\ plain_ascii p = true.
Proof.
  cbn [plain_ascii]. rewrite !andb_true_iff, !negb_true_iff, N.ltb_lt.
  intros [[[Hc Hcr] Hlf] Hp]. repeat split; try assumption; apply Ascii.eqb_neq; assumption.
Qed.

(** Decoding does not change whether the answer starts with a given
    string: the text is held by its encoding. *)
Lemma decode_keeps_plain_prefix (p : string) :
  forall b t, decode_utf8 b = Return t -> startswith t p = startswith b p.
Proof. intros b t ->%decode_utf8_returns. reflexivity. Qed.

(** Turning CR LF into LF does not change it either. *)
Lemma replace_keeps_plain_prefix (p : string) :
  plain_ascii p = true ->
  forall t, startswith (replace t crlf nl) p = startswith t p.
Proof.
  unfold replace. induction p as [|c p IH]; intros Hp t; [reflexivity|].
  apply plain_ascii_cons in Hp as (_ & Hcr & Hlf & Hp).
  destruct t as [|x t]; [reflexivity|].
  cbn [replace_go]. destruct (startswith (String x t) crlf) eqn:Hs.
  - apply startswith_spec in Hs as [r Hr]. injection Hr as -> _.
    assert (H1 : Ascii.eqb LF c = false) by (apply Ascii.eqb_neq; congruence).
    assert (H2 : Ascii.eqb CR c = false) by (apply Ascii.eqb_neq; congruence).
    unfold nl. cbn [String.append startswith]. rewrite H1, H2. reflexivity.
  - cbn [startswith]. rewrite (IH Hp t). reflexivity.
Qed.

(** X11. The supervisor looks for the sentinel in the bytes of the
    answer, the classifier in the decoded text with CR LF turned into
    LF: the two tests agree on every answer that decodes.  So a command
    is put into the bucket [crashed_DF] only if [run] has cleared the
    process handle for its answer, and, with a non-zero exit code and no
    traceback match, exactly then. *)
Theorem sentinel_tests_agree (cmd : string) (proc : CompletedProcess.t) (text : string)
    (p : option Popen.t) :
  decode_utf8 (CompletedProcess.stdout proc) = Return text ->
  let out := replace text crlf nl in
  let rc := CompletedProcess.returncode proc in
  startswith out sentinel = startswith (CompletedProcess.stdout proc) sentinel /\
  (classify cmd rc out = Crashed -> handle_after proc p = None) /\
  (rc <> 0%Z -> contains ("/hack/scripts/" +:+ cmd) out = false ->
   handle_after proc (Some fresh_handle) = None -> classify cmd rc out = Crashed).
Proof.
  intros Hd out rc.
  assert (Hagree : startswith out sentinel = startswith (CompletedProcess.stdout proc) sentinel).
  { subst out. rewrite (replace_keeps_plain_prefix sentinel eq_refl).
    apply (decode_keeps_plain_prefix sentinel), Hd. }
  split; [exact Hagree|]. unfold handle_after, classify. rewrite <- Hagree. split.
  - destruct (rc =? 0)%Z; [discriminate|].
    destruct (contains ("/hack/scripts/" +:+ cmd) out); [discriminate|].
    destruct (startswith out sentinel); [reflexivity|].
    destruct (_ || _); discriminate.
  - intros Hrc Htb. apply Z.eqb_neq in Hrc. rewrite Hrc, Htb.
    destruct (startswith out sentinel); [reflexivity | discriminate].
Qed.

End SentinelFacts.

Lemma sentinel_tests_agree_witness :
  classify "crashy" 1 (replace sentinel crlf nl) = Crashed.
Proof.
  apply (sentinel_tests_agree "crashy"
           {| CompletedProcess.returncode := 1; CompletedProcess.stdout := sentinel |}
           sentinel None eq_refl);
    [discriminate | reflexivity | reflexivity].
Defined.

(** ** The whole run: shutdown and failures *)

Section RunFacts.
Context (E : Env).

#[local] Arguments startswith : simpl never.
#[local] Arguments run : simpl never.

Lemma get_commands_kept (w : world) :
  kept w (get_commands E (Some (DFInstance_run E)) w).1.
Proof.
  unfold get_commands. rewrite bind_at.
  pose proof (run_kept E 2 ["ls"; "-a"] true w) as Hk. unfold DFInstance_run.
  destruct (run E 2 ["ls"; "-a"] true w) as [w1 [e|p]]; exact Hk.
Qed.

Lemma check_loop_kept (commands : list string) :
  forall results w, kept w (check_loop (DFInstance_run E) commands results w).1.
Proof.
  induction commands as [|cmd rest IH]; intros results w; [apply kept_refl|].
  rewrite check_loop_cons.
  pose proof (run_kept E 2 [cmd] true w) as Hk. unfold DFInstance_run.
  destruct (run E 2 [cmd] true w) as [w1 [e|proc]]; [exact Hk|].
  destruct (decode_utf8 _); [exact Hk|].
  eapply kept_trans; [exact Hk | apply IH].
Qed.

Lemma session_kept (w : world) : kept w (session E (DFInstance_run E) w).1.
Proof.
  unfold session. rewrite bind_at. pose proof (get_commands_kept w) as Hk.
  destruct (get_commands E _ w) as [w1 [e|commands]]; [exact Hk|].
  eapply kept_trans; [exact Hk | apply check_loop_kept].
Qed.

(** The bucket sizes are printed by no method of the instance. *)
Lemma quiet_refl (w : world) : quiet w w.
Proof. exists []. split; [symmetry; apply app_nil_r | constructor]. Qed.

Lemma quiet_trans (w1 w2 w3 : world) : quiet w1 w2 -> quiet w2 w3 -> quiet w1 w3.
Proof.
  intros (tl1 & Ht1 & Hq1) (tl2 & Ht2 & Hq2). exists (tl1 ++ tl2).
  split; [rewrite Ht2, Ht1, app_assoc; reflexivity | apply Forall_app; auto].
Qed.

Ltac quiet_list :=
  repeat first [ assumption | apply Forall_app; split
               | apply List.Forall_nil | apply List.Forall_cons; [reflexivity|] ].

Ltac quiet_tail :=
  simpl; eexists; split;
  [ first [ symmetry; apply app_nil_r | rewrite <- ?app_assoc; simpl; reflexivity ]
  | quiet_list ].

Ltac run_steps :=
  unfold open_with, subprocess_Popen, subprocess_run, bind, ask, emit, ret, raise,
    lift, get_self, set_proc, win_prelude, creation_flags; simpl.

Lemma open_with_quiet (r : list string -> bool -> M CompletedProcess.t) :
  (forall w, quiet w (r ["load-save"; "region1"] false w).1) ->
  forall w, quiet w (open_with E r w).1.
Proof.
  intros Hr [me tr]. unfold quiet. run_steps.
  destruct (startswith (platform E) "win"); simpl;
    (destruct (not_running (_proc me)); simpl; [|quiet_tail]);
    (destruct (spawn_fails E _ _ _ _); simpl; [quiet_tail|]);
    (destruct (isdir E _ _); simpl; [|quiet_tail]);
    match goal with |- context [?f ["load-save"; "region1"] false ?w0] =>
      destruct (Hr w0) as (tl & Htl & Hq);
      destruct (f ["load-save"; "region1"] false w0) as [w3 [e|x]]
    end; simpl in *; rewrite Htl; quiet_tail.
Qed.

Lemma run_quiet (d : nat) (commands : list string) (safe : bool) (w : world) :
  quiet w (run E d commands safe w).1.
Proof.
  revert commands safe w. induction d as [|d IH]; intros commands safe w; [apply quiet_refl|].
  rewrite run_S. destruct commands as [|c cs]; [apply quiet_refl|].
  rewrite bind_at. unfold open.
  pose proof (open_with_quiet (run E d) (fun w0 => IH _ false w0) w) as Ho.
  destruct (open_with E (run E d) w) as [w1 [e|[]]]; simpl in *; [exact Ho|].
  eapply quiet_trans; [exact Ho|]. destruct w1 as [me1 tr1]. unfold quiet. run_steps.
  destruct (answer E _ _) as [out|]; simpl;
    [destruct (startswith _ sentinel); simpl|]; quiet_tail.
Qed.

Lemma get_commands_quiet (w : world) :
  quiet w (get_commands E (Some (DFInstance_run E)) w).1.
Proof.
  rewrite get_commands_with.
  pose proof (run_quiet 2 ["ls"; "-a"] true w) as Hq. unfold DFInstance_run.
  destruct (run E 2 ["ls"; "-a"] true w) as [w1 [e|p]]; exact Hq.
Qed.

Lemma check_loop_quiet (commands : list string) :
  forall results w, quiet w (check_loop (DFInstance_run E) commands results w).1.
Proof.
  induction commands as [|cmd rest IH]; intros results w; [apply quiet_refl|].
  rewrite check_loop_cons.
  pose proof (run_quiet 2 [cmd] true w) as Hq. unfold DFInstance_run.
  destruct (run E 2 [cmd] true w) as [w1 [e|proc]]; [exact Hq|].
  destruct (decode_utf8 _); [exact Hq|].
  eapply quiet_trans; [exact Hq | apply IH].
Qed.

Lemma session_quiet (w : world) : quiet w (session E (DFInstance_run E) w).1.
Proof.
  unfold session. rewrite bind_at. pose proof (get_commands_quiet w) as Hq.
  destruct (get_commands E _ w) as [w1 [e|commands]]; [exact Hq|].
  eapply quiet_trans; [exact Hq | apply check_loop_quiet].
Qed.

Lemma check_unfold (glob_pattern : option string) (tr : list event) (inst : DFInstance) :
  DFInstance_init E glob_pattern tr = (tr, Return inst) ->
  check E glob_pattern tr =
  let '(w1, r) := session E (DFInstance_run E) {| self := inst; trace := tr |} in
  let die := Call [_dfhack_run (self w1); "die"] in
  match answer E (trace w1) [_dfhack_run (self w1); "die"], r with
  | Some _, Return report =>
      (trace w1 ++ [die; PrintCounts (size <$> report)], Return report)
  | Some _, Raise e => (trace w1 ++ [die], Raise e)
  | None, _ => (trace w1 ++ [die], Raise OSError)
  end.
Proof.
  intros Hinit. unfold check. rewrite bind_at. unfold with_DFInstance. rewrite Hinit.
  fold (session E (DFInstance_run E)).
  destruct (session E (DFInstance_run E) _) as [w1 r].
  unfold DFInstance_exit, subprocess_run, bind, get_self, ask, emit, ret, raise. simpl.
  destruct (answer E _ _) as [x|]; simpl; [|reflexivity].
  destruct r as [e|report]; [reflexivity|]. simpl.
  rewrite <- app_assoc. reflexivity.
Qed.

(** X12. Once an installation is found, [check] always ends by asking
    the host to [die], through the [dfhack-run] found at the start and
    whether the session returned or raised.  The bucket sizes are
    printed once, after that, when [check] returns a report; they are
    not printed when it raises: none of the events before [die] is a
    print of bucket sizes. *)
Theorem check_shuts_down (glob_pattern : option string) (tr : list event) (inst : DFInstance) :
  DFInstance_init E glob_pattern tr = (tr, Return inst) ->
  exists events,
    Forall (fun ev => is_counts ev = false) events /\
    match check E glob_pattern tr with
    | (tr', Return report) =>
        tr' = tr ++ events ++ [Call [_dfhack_run inst; "die"]; PrintCounts (size <$> report)]
    | (tr', Raise _) =>
        tr' = tr ++ events ++ [Call [_dfhack_run inst; "die"]]
    end.
Proof.
  intros Hinit. rewrite (check_unfold _ _ _ Hinit).
  pose proof (session_kept {| self := inst; trace := tr |}) as (_ & Hrun & _).
  pose proof (session_quiet {| self := inst; trace := tr |}) as (events & Htr & Hq).
  destruct (session E (DFInstance_run E) _) as [w1 r]. simpl in Hrun, Htr.
  exists events. split; [exact Hq|]. cbv beta iota zeta. rewrite Hrun, Htr.
  destruct (answer E _ _) as [x|]; [destruct r as [e|report]|];
    rewrite <- app_assoc; reflexivity.
Qed.

Lemma index_raises (l : list string) (x : string) (e : exn) :
  index l x = Raise e -> e = ValueError.
Proof.
  induction l as [|y l IH]; simpl; [congruence|].
  destruct (String.eqb y x); [discriminate|].
  destruct (index l x); [intros [= <-]; auto | discriminate].
Qed.

Lemma listing_raises (stdout : string) (e : exn) :
  listing_commands stdout = Raise e -> e = ValueError \/ e = UnicodeDecodeError.
Proof.
  destruct (listing_commands_cases stdout)
    as [(text & commands & _ & _ & ->) | [(text & _ & _ & ->) | [_ ->]]];
    [discriminate | intros [= <-]; auto | intros [= <-]; auto].
Qed.

Lemma check_loop_raises (commands : list string) :
  forall results w e,
    (check_loop (DFInstance_run E) commands results w).2 = Raise e ->
    e = OSError \/ e = UnicodeDecodeError.
Proof.
  induction commands as [|cmd rest IH]; intros results w e; [discriminate|].
  rewrite check_loop_cons.
  pose proof (run_raises E 0 [cmd] true w) as Hr. unfold DFInstance_run.
  destruct (run E 2 [cmd] true w) as [w1 [e'|proc]]; simpl in *.
  - intros [= <-]. destruct (Hr e' eq_refl) as [[_ Hc] | ->]; [discriminate | auto].
  - destruct (decode_utf8 _) as [e'|text] eqn:Hd; simpl.
    + intros [= <-]. right. eapply decode_utf8_raises, Hd.
    + apply IH.
Qed.

Lemma session_raises (w : world) (e : exn) :
  (session E (DFInstance_run E) w).2 = Raise e ->
  e = OSError \/ e = ValueError \/ e = UnicodeDecodeError.
Proof.
  unfold session. rewrite bind_at. unfold get_commands. rewrite bind_at.
  pose proof (run_raises E 0 ["ls"; "-a"] true w) as Hr. unfold DFInstance_run.
  destruct (run E 2 ["ls"; "-a"] true w) as [w1 [e'|p]]; simpl in *.
  - intros [= <-]. destruct (Hr e' eq_refl) as [[_ Hc] | ->]; [discriminate | auto].
  - unfold lift. destruct (listing_commands _) as [e'|commands] eqn:Hl.
    + intros [= <-]. right. eapply listing_raises, Hl.
    + intros H. apply check_loop_raises in H as [-> | H]; auto.
Qed.

(** X13. What [check] can fail with.  [IndexError] means that the
    pattern matched no installation, and then nothing has happened at
    all; the other failures are [OSError] (an executable could not be
    started), [ValueError] (no marker line in the listing) and
    [UnicodeDecodeError] (an answer that is not valid UTF-8).  The
    assertion of [run] never fails under [check], and neither does the
    subscript of [get_commands]. *)
Theorem check_failures (glob_pattern : option string) (tr tr' : list event) (e : exn) :
  check E glob_pattern tr = (tr', Raise e) ->
  (e = IndexError /\ tr' = tr /\ glob E tr (effective_pattern glob_pattern) = []) \/
  (e <> IndexError /\ glob E tr (effective_pattern glob_pattern) <> [] /\
   (e = OSError \/ e = ValueError \/ e = UnicodeDecodeError)).
Proof.
  destruct (glob E tr (effective_pattern glob_pattern)) as [|df_dir rest] eqn:Hglob.
  - unfold check. rewrite bind_at. unfold with_DFInstance, DFInstance_init.
    fold (effective_pattern glob_pattern). rewrite Hglob. intros [= <- <-]. auto.
  - assert (Hinit : exists inst, DFInstance_init E glob_pattern tr = (tr, Return inst)).
    { unfold DFInstance_init. fold (effective_pattern glob_pattern). rewrite Hglob. eauto. }
    destruct Hinit as [inst Hinit]. rewrite (check_unfold _ _ _ Hinit).
    pose proof (session_raises {| self := inst; trace := tr |}) as Hs.
    destruct (session E (DFInstance_run E) _) as [w1 r]. simpl in Hs.
    cbv beta iota zeta.
    assert (He : e = OSError \/ e = ValueError \/ e = UnicodeDecodeError ->
                 e <> IndexError /\ df_dir :: rest <> [] /\
                 (e = OSError \/ e = ValueError \/ e = UnicodeDecodeError)).
    { intros H. split; [|split; [discriminate | exact H]].
      destruct H as [-> | [-> | ->]]; discriminate. }
    destruct (answer E _ _) as [x|]; [destruct r as [e'|report]|].
    + intros [= _ <-]. right. apply He, Hs. reflexivity.
    + discriminate.
    + intros [= _ <-]. right. apply He. auto.
Qed.

(** X14. Called without a supervisor, [get_commands] makes an instance
    of its own and does what it does with the [run] of that instance as
    supervisor, and then asks the host to [die]: the events are those of
    the supervised call followed by [die], and the outcome is that of
    the supervised call, unless [dfhack-run] cannot be started for
    [die], which raises [OSError] whatever [ls -a] has answered. *)
Theorem get_commands_standalone (w : world) (inst : DFInstance) :
  DFInstance_init E None (trace w) = (trace w, Return inst) ->
  let supervised :=
    get_commands E (Some (DFInstance_run E)) {| self := inst; trace := trace w |} in
  let die := [_dfhack_run inst; "die"] in
  trace (get_commands E None w).1 = trace supervised.1 ++ [Call die] /\
  (get_commands E None w).2 =
    match answer E (trace supervised.1) die with
    | Some _ => supervised.2
    | None => Raise OSError
    end.
Proof.
  intros Hinit supervised die. subst supervised die.
  rewrite get_commands_with. unfold get_commands. rewrite bind_at.
  unfold nested, with_DFInstance. rewrite Hinit.
  pose proof (run_kept E 2 ["ls"; "-a"] true {| self := inst; trace := trace w |})
    as (_ & Hrun & _).
  unfold DFInstance_run.
  destruct (run E 2 ["ls"; "-a"] true _) as [w1 r] eqn:Hls. simpl in Hrun.
  unfold DFInstance_exit, subprocess_run, bind, get_self, ask, emit, ret, raise, lift. simpl.
  rewrite Hrun.
  destruct r as [e|p]; simpl; (destruct (answer E _ _) as [x|]; simpl; split; reflexivity).
Qed.

End RunFacts.

Section TracebackFacts.

(** X15. A command lands in [script_traceback] exactly when its exit
    code is not zero and its output contains "/hack/scripts/" followed
    by the command name.  The name need not end there: an output that
    puts a command into this bucket does the same for every command
    whose name is a prefix of that name. *)
Theorem traceback_follows_prefix (cmd : string) (rc : Z) (out : string) :
  (classify cmd rc out = ScriptTraceback <->
   rc <> 0%Z /\ exists a b, out = a +:+ ("/hack/scripts/" +:+ cmd) +:+ b) /\
  (forall short, has_prefix short cmd ->
     classify cmd rc out = ScriptTraceback -> classify short rc out = ScriptTraceback).
Proof.
  assert (Hiff : forall c, classify c rc out = ScriptTraceback <->
                 rc <> 0%Z /\ exists a b, out = a +:+ ("/hack/scripts/" +:+ c) +:+ b).
  { intros c. rewrite <- contains_spec. unfold classify.
    destruct (Z.eqb_spec rc 0) as [->|Hrc]; [split; [discriminate | intros [[] _]; reflexivity]|].
    destruct (contains ("/hack/scripts/" +:+ c) out); [tauto|].
    split; [|intros [_ H]; discriminate].
    destruct (startswith out sentinel); [discriminate|].
    destruct (_ || _); discriminate. }
  split; [apply Hiff|].
  intros short [rest ->] H. apply Hiff in H as [Hrc (a & b & ->)]. apply Hiff.
  split; [exact Hrc|]. exists a, (rest +:+ b).
  rewrite <- !append_assoc. reflexivity.
Qed.

End TracebackFacts.

(** ** The further properties on the sample world *)

Lemma launch_failure_sends_nothing_witness :
  DFInstance_run (sample_env_with true true ["Dwarf Fortress 0.43.05"]) ["reveal"] true
    sample_world =
  ({| self := sample_instance;
      trace := [SetErrorMode 2;
                Spawn ["C:/Dwarf Fortress 0.43.05/Dwarf Fortress.exe"]
                  "C:/Dwarf Fortress 0.43.05" 134217728] |},
   Raise OSError).
Proof.
  apply (proj2 (launch_failure_sends_nothing
                  (sample_env_with true true ["Dwarf Fortress 0.43.05"]) 1 sample_world
                  eq_refl eq_refl)).
Defined.

Lemma open_without_save_warns_witness :
  DFInstance_open (sample_env_with false false ["Dwarf Fortress 0.43.05"]) sample_world =
  ({| self := with_proc sample_instance (Some fresh_handle);
      trace := [SetErrorMode 2;
                Spawn ["C:/Dwarf Fortress 0.43.05/Dwarf Fortress.exe"]
                  "C:/Dwarf Fortress 0.43.05" 134217728;
                Print no_save_warning] |},
   Return tt).
Proof.
  apply (open_without_save_warns
           (sample_env_with false false ["Dwarf Fortress 0.43.05"]) 1 sample_world
           eq_refl eq_refl eq_refl).
Defined.



(** Every call of the scenario returns an answer that decodes. *)
Lemma scenario_calls_return (cmd : string) (w0 : world) :
  cmd ∈ scenario_commands ->
  exists w1 proc text,
    DFInstance_run sample_env [cmd] true w0 = (w1, Return proc) /\
    decode_utf8 (CompletedProcess.stdout proc) = Return text.
Proof.
  destruct w0 as [[exe dr [[[rc|]]|]] tr]; intros Hin.
  all: repeat (apply elem_of_cons in Hin; destruct Hin as [->|Hin]).
  all: try (apply elem_of_nil in Hin; destruct Hin).
  all: eexists _, _, _; split; [vm_compute; reflexivity | reflexivity].
Qed.

Lemma scenario_nodup : NoDup scenario_commands.
Proof. apply (bool_decide_unpack _). vm_compute. exact I. Qed.

Lemma report_stores_outputs_witness :
  exists w' report,
    check_loop (DFInstance_run sample_env) scenario_commands ∅ sample_world
      = (w', Return report) /\
    exists w0 r0 w1 proc text,
      check_loop (DFInstance_run sample_env) ["reveal"; "quickfort"; "gui/foo"] ∅ sample_world
        = (w0, Return r0) /\
      DFInstance_run sample_env ["crashy"] true w0 = (w1, Return proc) /\
      decode_utf8 (CompletedProcess.stdout proc) = Return text /\
      let out := replace text crlf nl in
      let key := bucket_name (classify "crashy" (CompletedProcess.returncode proc) out) in
      check_loop (DFInstance_run sample_env) [] (record r0 key "crashy" out) w1
        = (w', Return report) /\
      stored report key "crashy" out.
Proof.
  destruct (check_loop_returns (DFInstance_run sample_env) scenario_commands
              (fun cmd w0 => scenario_calls_return cmd w0) ∅ sample_world)
    as (w' & report & Hloop).
  exists w', report. split; [exact Hloop|].
  apply (report_stores_outputs (DFInstance_run sample_env)
           ["reveal"; "quickfort"; "gui/foo"] [] "crashy"
           ∅ sample_world w' report scenario_nodup Hloop).
Defined.

Lemma counts_add_up_witness :
  exists w' report,
    check_loop (DFInstance_run sample_env) scenario_commands ∅ sample_world
      = (w', Return report) /\
    total_count (size <$> report) = 4.
Proof.
  destruct (check_loop_returns (DFInstance_run sample_env) scenario_commands
              (fun cmd w0 => scenario_calls_return cmd w0) ∅ sample_world)
    as (w' & report & Hloop).
  exists w', report. split; [exact Hloop|].
  apply (counts_add_up (DFInstance_run sample_env) scenario_commands sample_world w' report
           scenario_nodup Hloop).
Defined.

Lemma check_shuts_down_witness :
  exists events,
    Forall (fun ev => is_counts ev = false) events /\
    match check sample_env None [] with
    | (tr', Return report) =>
        tr' = [] ++ events ++
              [Call [_dfhack_run sample_instance; "die"]; PrintCounts (size <$> report)]
    | (tr', Raise _) => tr' = [] ++ events ++ [Call [_dfhack_run sample_instance; "die"]]
    end.
Proof.
  apply (check_shuts_down sample_env None [] sample_instance). reflexivity.
Defined.

Lemma check_failures_witness :
  glob (sample_env_with false true []) [] (effective_pattern None) = [].
Proof.
  destruct (check_failures (sample_env_with false true []) None [] [] IndexError eq_refl)
    as [(_ & _ & H) | (H & _)]; [exact H | destruct (H eq_refl)].
Defined.

Lemma get_commands_standalone_witness :
  let supervised :=
    get_commands sample_env (Some (DFInstance_run sample_env))
      {| self := sample_instance; trace := trace live_world |} in
  let die := [_dfhack_run sample_instance; "die"] in
  trace (get_commands sample_env None live_world).1 = trace supervised.1 ++ [Call die] /\
  (get_commands sample_env None live_world).2 =
    match answer sample_env (trace supervised.1) die with
    | Some _ => supervised.2
    | None => Raise OSError
    end.
Proof.
  apply (get_commands_standalone sample_env live_world sample_instance). reflexivity.
Defined.

Lemma traceback_follows_prefix_witness :
  classify "gui" 1 ("/hack/scripts/gui/foo.lua:3: oops") = ScriptTraceback.
Proof.
  apply (proj2 (traceback_follows_prefix "gui/foo" 1 "/hack/scripts/gui/foo.lua:3: oops") "gui");
    [exists "/foo"; reflexivity | reflexivity].
Defined.

(** Called without a supervisor on the sample world. *)
Example get_commands_standalone_sample :
  (get_commands sample_env None live_world).2 = Return ["reveal"] /\
  trace (get_commands sample_env None live_world).1 =
  [ SetErrorMode 2;
    Spawn ["C:/Dwarf Fortress 0.43.05/Dwarf Fortress.exe"] "C:/Dwarf Fortress 0.43.05" 134217728;
    SetErrorMode 2;
    Call ["C:/Dwarf Fortress 0.43.05/dfhack-run.exe"; "load-save"; "region1"];
    Sleep 10;
    Call ["C:/Dwarf Fortress 0.43.05/dfhack-run.exe"; "ls"; "-a"];
    Call ["C:/Dwarf Fortress 0.43.05/dfhack-run.exe"; "die"] ].
Proof. split; vm_compute; reflexivity. Qed.
